(** * The travel planner's geocoding and map block (src/app.py)

    A shallow embedding of the part of [main] that turns the two location
    inputs into a folium map: the memoised [geocode_location] with its retry
    loop (lines 76-89), the two guarded calls (lines 92-100) and the map
    block with the itinerary display (lines 103-133).  The form widgets and
    the "About" tab only draw fixed text and are left out.  The script of
    src/list_models.py is embedded beside it.

    The script talks to three outside parties.  They are modelled as follows.
    - geopy's [geolocator.geocode]: a function from the number of calls made
      so far, the query and the timeout to the outcome of that call; the
      world counts the calls.  Where a property depends on what geopy itself
      does with the service's reply (the classes of its exceptions, the
      checks of its [Location]), the geocoder is [Nominatim_geocode] of a
      service.
    - Gemini's [model.generate_content]: a function from the values put into
      the prompt to a text or an exception.
    - Streamlit: the page is the list of elements drawn so far,
      [st.session_state.itinerary] is a field of the world, and
      [st.cache_data] is a store from the call's argument to the value the
      function returned, the elements it drew and the time the entry ends. *)

From Stdlib Require Import ZArith Floats List Lia.
From stdpp Require Import base strings gmap.

Open Scope Z_scope.

(** ** Values of the libraries *)

(** geopy's [Location]: the attributes the script reads, and the address. *)
Record Location := {
  address : string;
  latitude : float;
  longitude : float
}.

(** What a [geolocator.geocode] call can raise, by the handler of
    [geocode_location] that catches it: line 82 names [GeocoderTimedOut] and
    [GeocoderServiceError], line 87 takes every other [Exception]. *)
Inductive GeocodeException :=
| GeocoderTimedOut (msg : string)
| GeocoderServiceError (msg : string)
| OtherException (msg : string).

(** One call of [geolocator.geocode]: a [Location], [None] when the provider
    knows no such place, or an exception. *)
Inductive Outcome :=
| Returned (r : option Location)
| Raised (e : GeocodeException).

(** [folium.Marker([lat, lon], tooltip=..., icon=folium.Icon(color=...))];
    [icon_color] is [None] for the default icon. *)
Record Marker := {
  marker_location : float * float;
  tooltip : string;
  icon_color : option string
}.

(** [folium.Map]: the constructor's two arguments, the markers added to it in
    order, and the argument of [fit_bounds] once it was called. *)
Record FoliumMap := {
  location : float * float;
  zoom_start : Z;
  markers : list Marker;
  bounds : option ((float * float) * (float * float))
}.

(** [folium.Map(location=..., zoom_start=...)], [marker.add_to(m)] and
    [m.fit_bounds(...)], for finite coordinates, the only ones a [Location]
    of geopy holds ([folium.Map] raises on a NaN). *)
Definition folium_Map (loc : float * float) (zoom : Z) : FoliumMap :=
  {| location := loc; zoom_start := zoom; markers := []; bounds := None |}.

Definition add_to (mk : Marker) (m : FoliumMap) : FoliumMap :=
  {| location := location m; zoom_start := zoom_start m;
     markers := markers m ++ [mk]; bounds := bounds m |}.

Definition fit_bounds (b : (float * float) * (float * float)) (m : FoliumMap)
    : FoliumMap :=
  {| location := location m; zoom_start := zoom_start m;
     markers := markers m; bounds := Some b |}.

(** The sidebar's inputs, lines 40-60, as the values the script reads. *)
Record TripForm := {
  starting_location : string;
  destination : string;
  budget_min : string;
  budget_max : string;
  currency : string;
  start_date : string;
  end_date : string;
  interests : list string
}.

(** [response.text], or the exception line 24 catches. *)
Inductive Response :=
| Text (t : string)
| Failed (e : string).

(** The elements the modelled lines draw. *)
Inductive Element :=
| SidebarError (text : string)                          (* line 64 *)
| GeneratingSubheader (destination : string)            (* line 67 *)
| ItineraryError (e : string)                           (* line 25 *)
| Subheader (text : string)                             (* line 73 *)
| GeocodeWarning (location_name : string) (retries : Z)
                 (e : GeocodeException)                 (* line 85 *)
| GeocodeError (location_name : string)
               (e : GeocodeException)                   (* line 88 *)
| StFolium (m : FoliumMap) (width height : Z)           (* line 127 *)
| Markdown (body : string)                              (* line 131 *)
| Info (text : string).                                 (* line 133 *)

(** ** The world *)

(** An entry of [st.cache_data]: the returned value, the elements the function
    drew (Streamlit draws them again on a hit), and the time the entry ends. *)
Record CachedResult := {
  value : option Location;
  messages : list Element;
  expires : Z
}.

(** [net_calls] counts the calls of [geolocator.geocode] made so far.
    [itinerary] is [st.session_state.itinerary]: a string, or [None] both for
    Python's [None] and for the missing key, which lines 35-36 turn into
    [None] before anything reads it. *)
Record World := {
  net_calls : nat;
  cache : gmap string CachedResult;
  itinerary : option string;
  page : list Element
}.

Definition set_net_calls (n : nat) (w : World) : World :=
  {| net_calls := n; cache := cache w; itinerary := itinerary w; page := page w |}.

Definition set_cache (c : gmap string CachedResult) (w : World) : World :=
  {| net_calls := net_calls w; cache := c; itinerary := itinerary w; page := page w |}.

Definition set_itinerary (v : option string) (w : World) : World :=
  {| net_calls := net_calls w; cache := cache w; itinerary := v; page := page w |}.

Definition set_page (p : list Element) (w : World) : World :=
  {| net_calls := net_calls w; cache := cache w; itinerary := itinerary w; page := p |}.

(** ** The script's monad: a computation reads and updates the world *)

Definition App (A : Type) : Type := World -> A * World.

Definition ret {A} (a : A) : App A := fun w => (a, w).

Definition bind {A B} (c : App A) (k : A -> App B) : App B :=
  fun w => let '(a, w') := c w in k a w'.

Declare Scope app_scope.
Delimit Scope app_scope with app.
Notation "x <- c ;; k" := (bind c (fun x => k))
  (at level 100, c at next level, right associativity) : app_scope.
Notation "c ;; k" := (bind c (fun _ => k))
  (at level 100, right associativity) : app_scope.
Open Scope app_scope.

(** Any [st.*] call that draws: the element goes to the end of the page. *)
Definition st (e : Element) : App unit :=
  fun w => (tt, set_page (page w ++ [e]) w).

(** ** Python's truth values *)

(** [if s:] on a string. *)
Definition truthy_str (s : string) : bool :=
  match s with
  | EmptyString => false
  | String _ _ => true
  end.

(** [if x:] on a [Location] or [None]; a [Location] is never falsy. *)
Definition truthy {A} (x : option A) : bool :=
  match x with
  | Some _ => true
  | None => false
  end.

(** [except (GeocoderTimedOut, GeocoderServiceError) as e] *)
Definition caught_by_line_82 (e : GeocodeException) : bool :=
  match e with
  | GeocoderTimedOut _ | GeocoderServiceError _ => true
  | OtherException _ => false
  end.

(** [range(n)] *)
Definition range (n : Z) : list Z := map Z.of_nat (seq 0 (Z.to_nat n)).


(** ** geopy, as far as [geolocator.geocode] shows it to the script

    [geolocator] is geopy's [Nominatim].  Two things it does decide what
    [geocode_location] sees: the class of the exception it raises, and the
    checks of the [Location] it builds from the service's answer. *)

Module geopy.

(** geopy.exc: [GeocoderServiceError] and the classes derived from it; every
    exception that is not one of them goes by its class name. *)
Inductive exc :=
| GeocoderServiceError
| GeocoderQueryError
| GeocoderQuotaExceeded
| GeocoderRateLimited
| GeocoderAuthenticationFailure
| GeocoderInsufficientPrivileges
| GeocoderTimedOut
| GeocoderUnavailable
| GeocoderParseError
| Other (class_name : string).

(** [isinstance(e, GeocoderServiceError)] *)
Definition is_service_error (c : exc) : bool :=
  match c with
  | Other _ => false
  | _ => true
  end.

End geopy.

(** The handler of [geocode_location] that takes an exception of class [c]:
    line 82 names [GeocoderTimedOut], and [GeocoderServiceError] with all that
    derives from it; line 87 takes the rest. *)
Definition caught_as (c : geopy.exc) (msg : string) : GeocodeException :=
  match c with
  | geopy.GeocoderTimedOut => GeocoderTimedOut msg
  | geopy.Other _ => OtherException msg
  | _ => GeocoderServiceError msg
  end.

(** C's [fmod(x, 360)] on a float: exact, with the sign of [x]. *)
Definition fmod_360 (x : float) : float :=
  match Prim2SF x with
  | S754_finite s m e =>
      let r := if 0 <=? e then (Zpos m * 2 ^ e) mod 360
               else Zpos m mod (360 * 2 ^ (- e)) in
      match r with
      | Zpos r => SF2Prim (S754_finite s r (Z.min e 0))
      | _ => SF2Prim (S754_zero s)
      end
  | S754_zero _ => x
  | _ => nan
  end.

(** Python's [x % 360] on a float: [fmod], moved into [[0, 360]] when it is
    negative, and [0.0] when it is zero. *)
Definition mod_360 (x : float) : float :=
  let r := fmod_360 x in
  if PrimFloat.is_nan r then r
  else if PrimFloat.is_zero r then 0%float
  else if PrimFloat.ltb r 0 then (r + 360)%float
  else r.

(** [x or 0.0] on a float: a zero of either sign becomes [0.0]. *)
Definition or_zero (x : float) : float :=
  if PrimFloat.is_zero x then 0%float else x.

(** geopy.point: what [Point] makes of a latitude and a longitude (the
    altitude is [0.0] here).  [None] is the [ValueError] it raises for a
    coordinate that is not finite or a latitude beyond 90; a longitude beyond
    180 is wrapped, [((longitude + 180) % 360) - 180]. *)
Definition normalize_coordinates (latitude longitude : float)
    : option (float * float) :=
  let latitude := or_zero latitude in
  let longitude := or_zero longitude in
  if negb (PrimFloat.is_finite latitude && PrimFloat.is_finite longitude) then None
  else if PrimFloat.ltb 90 (PrimFloat.abs latitude) then None
  else if PrimFloat.ltb 180 (PrimFloat.abs longitude)
       then Some (latitude, (mod_360 (longitude + 180) - 180)%float)
       else Some (latitude, longitude).

(** The first place of the service's answer, with the three fields geopy
    reads, the numbers already through [float(...)]. *)
Record Place := {
  display_name : string;
  lat : float;
  lon : float
}.

(** What one request to the service comes to inside geopy: an answer, with a
    place or with none, or an exception of some class. *)
Inductive Reply :=
| Answer (place : option Place)
| Fails (class : geopy.exc) (msg : string).

(** [Nominatim.geocode]: no place gives [None]; a place gives
    [Location(display_name, (lat, lon))], whose [Point] raises for bad
    coordinates (the text of that [ValueError] is not modelled, its class
    name stands for it); an exception goes to the caller. *)
Definition Nominatim_geocode (service : nat -> string -> Z -> Reply)
    : nat -> string -> Z -> Outcome :=
  fun n location_name timeout =>
    match service n location_name timeout with
    | Fails c msg => Raised (caught_as c msg)
    | Answer None => Returned None
    | Answer (Some place) =>
        match normalize_coordinates (lat place) (lon place) with
        | Some (latitude, longitude) =>
            Returned (Some {| address := display_name place;
                              latitude := latitude;
                              longitude := longitude |})
        | None => Raised (caught_as (geopy.Other "ValueError") "ValueError")
        end
    end.

(** ** What a reachable cache looks like *)

(** The elements [geocode_location] draws for [location_name]: the warning of
    line 85 and the error of line 88. *)
Definition is_geocode_message (location_name : string) (e : Element) : bool :=
  match e with
  | GeocodeWarning n _ _ | GeocodeError n _ => String.eqb n location_name
  | _ => false
  end.

(** An entry as [geocode_location] leaves it under [key]: at most one drawn
    element, a message of [geocode_location] for [key], and none beside a
    [Location]. *)
Definition entry_ok (key : string) (entry : CachedResult) : Prop :=
  (length (messages entry) <= 1)%nat
  /\ Forall (fun e => is_geocode_message key e = true) (messages entry)
  /\ (value entry <> None -> messages entry = []).

Definition cache_ok (w : World) : Prop :=
  forall key entry, cache w !! key = Some entry -> entry_ok key entry.

(** The elements the button block draws, lines 62-69 with line 25. *)
Definition is_button_element (e : Element) : bool :=
  match e with
  | SidebarError _ | GeneratingSubheader _ | ItineraryError _ => true
  | _ => false
  end.

(** The elements the map block draws, lines 127-133. *)
Definition is_map_block_element (e : Element) : bool :=
  match e with
  | StFolium _ _ _ | Markdown _ | Info _ => true
  | _ => false
  end.

(** ** src/list_models.py *)

(** An item of [genai.list_models()], with the two attributes the script
    reads. *)
Record Model := {
  name : string;
  supported_generation_methods : list string
}.

(** [genai.list_models()] as the loop sees it: the items it yields and, when
    the service fails on the way, the exception that ends it. *)
Record Listing := {
  items : list Model;
  failure : option string
}.

(** How the script ends: after the loop, by [exit()] of line 8, or with the
    exception of the listing, which nothing catches. *)
Inductive Ending :=
| Done
| Exited
| Uncaught (e : string).

(** The whole script: [stdout] as the list of printed lines, and its end.
    [secrets] is what [st.secrets] finds: [None] when there is no secrets
    file, and then [st.secrets[...]] raises an exception that is no
    [KeyError], which line 6 does not catch; else the file as a dictionary,
    where a missing key is the [KeyError] of line 6.  [list_models] gets the
    configured key. *)
Definition list_models_script (secrets : option (gmap string string))
    (list_models : string -> Listing) : list string * Ending :=
  match secrets with
  | None => ([], Uncaught "StreamlitSecretNotFoundError")
  | Some file =>
      match file !! "GEMINI_API_KEY" with
      | None =>
          (["Gemini API Key not found. Please set it in .streamlit/secrets.toml"],
           Exited)
      | Some api_key =>
          let listing := list_models api_key in
          (map name
             (filter (fun m => "generateContent" ∈ supported_generation_methods m)
                (items listing)),
           match failure listing with
           | Some e => Uncaught e
           | None => Done
           end)
      end
  end.

(** ** Sample providers and inputs, for concrete runs *)

(** A geocoder that knows no place at all. *)
Definition knows_nothing : nat -> string -> Z -> Outcome :=
  fun _ _ _ => Returned None.

(** A geocoder that is down. *)
Definition always_down : nat -> string -> Z -> Outcome :=
  fun _ _ _ => Raised (GeocoderServiceError "503").

(** A geocoder that breaks in a way line 82 does not name. *)
Definition always_broken : nat -> string -> Z -> Outcome :=
  fun _ _ _ => Raised (OtherException "ValueError").

(** A geocoder that times out twice and then puts every place at latitude
    78.25 and longitude 15.5. *)
Definition far_north (location_name : string) : Location :=
  {| address := location_name; latitude := 78.25%float; longitude := 15.5%float |}.

Definition slow_and_wrong : nat -> string -> Z -> Outcome :=
  fun n location_name _ =>
    if (n <? 2)%nat then Raised (GeocoderTimedOut "timed out")
    else Returned (Some (far_north location_name)).

(** A geocoder that puts every place at latitude 48.875 and longitude 2.375. *)
Definition paris (location_name : string) : Location :=
  {| address := location_name; latitude := 48.875%float; longitude := 2.375%float |}.

Definition all_is_paris : nat -> string -> Z -> Outcome :=
  fun _ location_name _ => Returned (Some (paris location_name)).

Definition day_one : TripForm -> Response := fun _ => Text "Day 1: arrive".

Definition trip (starting_location destination : string) : TripForm :=
  {| starting_location := starting_location; destination := destination;
     budget_min := "500"; budget_max := "2000"; currency := "USD";
     start_date := "2025-06-01"; end_date := "2025-06-07";
     interests := ["Food"] |}.

(** A fresh process: no call made, nothing cached, no itinerary, no page. *)
Definition fresh : World :=
  {| net_calls := 0; cache := ∅; itinerary := None; page := [] |}.

(** A geocoder that answers the first call and is down from then on. *)
Definition one_answer_only : nat -> string -> Z -> Outcome :=
  fun n location_name _ =>
    if (n <? 1)%nat then Returned (Some (paris location_name))
    else Raised (GeocoderServiceError "503").

(** A service that rejects every request as malformed (HTTP 400). *)
Definition malformed_query : nat -> string -> Z -> Reply :=
  fun _ _ _ => Fails geopy.GeocoderQueryError "HTTP 400".



(** A generator that fails. *)
Definition gemini_down : TripForm -> Response := fun _ => Failed "quota".

(** A listing of three models, the second without [generateContent]. *)
Definition three_models : string -> Listing :=
  fun _ =>
    {| items :=
         [ {| name := "models/gemini-pro";
              supported_generation_methods := ["generateContent"; "countTokens"] |};
           {| name := "models/embedding-001";
              supported_generation_methods := ["embedContent"] |};
           {| name := "models/gemini-flash";
              supported_generation_methods := ["countTokens"; "generateContent"] |} ];
       failure := None |}.

Section Script.

(** [geolocator.geocode(location_name, timeout=timeout)], the call number
    first. *)
Variable geolocator_geocode : nat -> string -> Z -> Outcome.

(** ** [geocode_location], lines 77-89 *)

(** Line 81: one network call. *)
Definition geocode (location_name : string) (timeout : Z) : App Outcome :=
  fun w => (geolocator_geocode (net_calls w) location_name timeout,
            set_net_calls (S (net_calls w)) w).

(** The [for attempt in range(retries)] loop over what is left of the range.
    When the range is used up the function ends without a [return]: [None]. *)
Fixpoint attempt_loop (location_name : string) (retries timeout : Z)
    (attempts : list Z) : App (option Location) :=
  match attempts with
  | [] => ret None
  | attempt :: rest =>
      o <- geocode location_name timeout ;;
      match o with
      | Returned r => ret r
      | Raised e =>
          if caught_by_line_82 e then
            if attempt <? retries - 1
            then attempt_loop location_name retries timeout rest
            else st (GeocodeWarning location_name retries e) ;;
                 ret None
          else
            st (GeocodeError location_name e) ;;
            ret None
      end
  end.

Definition geocode_location (location_name : string) (retries timeout : Z)
    : App (option Location) :=
  attempt_loop location_name retries timeout (range retries).

(** ** [@st.cache_data(ttl=3600)], line 76 *)

Definition ttl : Z := 3600.

(** The entry under [key] that has not ended at [now], if any. *)
Definition cache_read (now : Z) (key : string) (w : World) : option CachedResult :=
  match cache w !! key with
  | Some entry => if now <? expires entry then Some entry else None
  | None => None
  end.

(** The decorated function as [main] calls it, [geocode_location(name)]: on
    a hit the stored value is returned and the stored elements drawn again;
    on a miss the function runs with its defaults, and whatever it returns is
    stored with the elements it drew. *)
Definition cached_geocode_location (now : Z) (location_name : string)
    : App (option Location) :=
  fun w =>
    match cache_read now location_name w with
    | Some entry => (value entry, set_page (page w ++ messages entry) w)
    | None =>
        let '(r, w') := geocode_location location_name 3 10 (set_page [] w) in
        let entry := {| value := r; messages := page w'; expires := now + ttl |} in
        (r, set_page (page w ++ page w')
              (set_cache (<[location_name := entry]> (cache w')) w'))
    end.

(** Lines 92-95 and 97-100: an empty input is not looked up. *)
Definition resolve (now : Z) (location_name : string) : App (option Location) :=
  if truthy_str location_name
  then cached_geocode_location now location_name
  else ret None.

(** ** The button, lines 62-69, with [generate_itinerary], lines 18-26 *)

(** [model.generate_content(prompt)] as a function of the values the prompt
    is made of. *)
Variable generate_content : TripForm -> Response.

Definition generate_itinerary (form : TripForm) : App string :=
  match generate_content form with
  | Text t => ret t
  | Failed e =>
      st (ItineraryError e) ;;
      ret "Error: Could not generate itinerary."
  end.

Definition button_block (form : TripForm) (clicked : bool) : App unit :=
  if clicked then
    if negb (truthy_str (destination form)) then
      st (SidebarError "Please enter a destination.")
    else
      st (GeneratingSubheader (destination form)) ;;
      text <- generate_itinerary form ;;
      fun w => (tt, set_itinerary (Some text) w)
  else ret tt.

(** ** The map block, lines 103-133 *)

(** Lines 104-126: the map that is handed to [st_folium]. *)
Definition create_map (starting_location destination : string)
    (starting_loc_coords destination_loc_coords : option Location) : FoliumMap :=
  let map_center :=
    match destination_loc_coords, starting_loc_coords with
    | Some d, _ => (latitude d, longitude d)
    | None, Some s => (latitude s, longitude s)
    | None, None => (0%float, 0%float)
    end in
  let m := folium_Map map_center 10 in
  let m :=
    match starting_loc_coords with
    | Some s =>
        add_to {| marker_location := (latitude s, longitude s);
                  tooltip := starting_location;
                  icon_color := None |} m
    | None => m
    end in
  let m :=
    match destination_loc_coords with
    | Some d =>
        add_to {| marker_location := (latitude d, longitude d);
                  tooltip := destination;
                  icon_color := Some "red" |} m
    | None => m
    end in
  match starting_loc_coords, destination_loc_coords with
  | Some s, Some d =>
      fit_bounds ((latitude s, longitude s), (latitude d, longitude d)) m
  | _, _ => m
  end.

Definition map_block (starting_location destination : string)
    (starting_loc_coords destination_loc_coords : option Location) : App unit :=
  if truthy starting_loc_coords || truthy destination_loc_coords then
    st (StFolium (create_map starting_location destination
                    starting_loc_coords destination_loc_coords) 700 500) ;;
    fun w =>
      match itinerary w with
      | Some body => if truthy_str body then st (Markdown body) w else (tt, w)
      | None => (tt, w)
      end
  else
    st (Info "Enter a starting location or destination to see the map.").

(** ** [main], lines 62-133 *)

(** Up to line 100: a run draws its page anew, handles the button and
    resolves the two inputs, the starting location first. *)
Definition main_until_map (now : Z) (form : TripForm) (clicked : bool)
    : App (option Location * option Location) :=
  (fun w => (tt, set_page [] w)) ;;
  button_block form clicked ;;
  st (Subheader "Explore on Map") ;;
  starting_loc_coords <- resolve now (starting_location form) ;;
  destination_loc_coords <- resolve now (destination form) ;;
  ret (starting_loc_coords, destination_loc_coords).

Definition main (now : Z) (form : TripForm) (clicked : bool) : App unit :=
  coords <- main_until_map now form clicked ;;
  map_block (starting_location form) (destination form) (fst coords) (snd coords).

(** The world when line 92 is reached: the page drawn anew, the button
    handled, the subheader of line 73 drawn. *)
Definition at_line_92 (form : TripForm) (clicked : bool) (w : World) : World :=
  snd (((fun w => (tt, set_page [] w)) ;;
        button_block form clicked ;;
        st (Subheader "Explore on Map")) w).

(** * Properties *)

Implicit Types (w : World) (location_name : string) (retries timeout : Z).

(** One turn of the loop, by the outcome of its call. *)
Lemma attempt_loop_returned location_name retries timeout attempt rest w r :
  geolocator_geocode (net_calls w) location_name timeout = Returned r ->
  attempt_loop location_name retries timeout (attempt :: rest) w
  = (r, set_net_calls (S (net_calls w)) w).
Proof. intros H. cbn. unfold bind, geocode. rewrite H. reflexivity. Qed.

Lemma attempt_loop_other location_name retries timeout attempt rest w e :
  geolocator_geocode (net_calls w) location_name timeout = Raised e ->
  caught_by_line_82 e = false ->
  attempt_loop location_name retries timeout (attempt :: rest) w
  = (None, set_page (page w ++ [GeocodeError location_name e])
             (set_net_calls (S (net_calls w)) w)).
Proof. intros H He. cbn. unfold bind, geocode. rewrite H, He. reflexivity. Qed.

Lemma attempt_loop_again location_name retries timeout attempt rest w e :
  geolocator_geocode (net_calls w) location_name timeout = Raised e ->
  caught_by_line_82 e = true ->
  (attempt <? retries - 1) = true ->
  attempt_loop location_name retries timeout (attempt :: rest) w
  = attempt_loop location_name retries timeout rest
      (set_net_calls (S (net_calls w)) w).
Proof. intros H He Ha. cbn. unfold bind, geocode. rewrite H, He, Ha. reflexivity. Qed.

Lemma attempt_loop_give_up location_name retries timeout attempt rest w e :
  geolocator_geocode (net_calls w) location_name timeout = Raised e ->
  caught_by_line_82 e = true ->
  (attempt <? retries - 1) = false ->
  attempt_loop location_name retries timeout (attempt :: rest) w
  = (None, set_page (page w ++ [GeocodeWarning location_name retries e])
             (set_net_calls (S (net_calls w)) w)).
Proof. intros H He Ha. cbn. unfold bind, geocode. rewrite H, He, Ha. reflexivity. Qed.

(** The cases of one turn, for proofs by induction on the range. *)
Ltac loop_cases location_name timeout w :=
  let r := fresh "r" in
  let e := fresh "e" in
  let Ho := fresh "Ho" in
  let He := fresh "He" in
  let Ha := fresh "Ha" in
  destruct (geolocator_geocode (net_calls w) location_name timeout)
    as [r|e] eqn:Ho;
  [ rewrite (attempt_loop_returned _ _ _ _ _ _ _ Ho)
  | destruct (caught_by_line_82 e) eqn:He;
    [ match goal with
      | |- context [attempt_loop _ ?n _ (?a :: _) _] =>
          destruct (a <? n - 1) eqn:Ha;
          [ rewrite (attempt_loop_again _ _ _ _ _ _ _ Ho He Ha)
          | rewrite (attempt_loop_give_up _ _ _ _ _ _ _ Ho He Ha) ]
      end
    | rewrite (attempt_loop_other _ _ _ _ _ _ _ Ho He) ] ].

(** The loop touches the call counter and the page only. *)
Lemma attempt_loop_frame location_name retries timeout attempts w :
  cache (snd (attempt_loop location_name retries timeout attempts w)) = cache w
  /\ itinerary (snd (attempt_loop location_name retries timeout attempts w))
     = itinerary w.
Proof.
  revert w. induction attempts as [|attempt rest IH]; intros w.
  - split; reflexivity.
  - loop_cases location_name timeout w; try (split; reflexivity).
    destruct (IH (set_net_calls (S (net_calls w)) w)) as [Hc Hi].
    rewrite Hc, Hi. split; reflexivity.
Qed.

(** It makes at least no call and at most one per element of the range. *)
Lemma attempt_loop_calls location_name retries timeout attempts w :
  (net_calls w
   <= net_calls (snd (attempt_loop location_name retries timeout attempts w))
   <= net_calls w + length attempts)%nat.
Proof.
  revert w. induction attempts as [|attempt rest IH]; intros w.
  - cbn. lia.
  - loop_cases location_name timeout w; cbn [snd net_calls set_page set_net_calls length];
      try lia.
    specialize (IH (set_net_calls (S (net_calls w)) w)). cbn in IH. lia.
Qed.

(** A call that is not the last one of the loop raised what line 82 names. *)
Lemma attempt_loop_retries_only location_name retries timeout attempts w j :
  (net_calls w <= j)%nat ->
  (S j < net_calls (snd (attempt_loop location_name retries timeout attempts w)))%nat ->
  exists e, geolocator_geocode j location_name timeout = Raised e
            /\ caught_by_line_82 e = true.
Proof.
  revert w. induction attempts as [|attempt rest IH]; intros w Hlo Hhi.
  - cbn in Hhi. lia.
  - revert Hhi. loop_cases location_name timeout w;
      cbn [snd net_calls set_page set_net_calls]; intros Hhi; try lia.
    destruct (Nat.eq_dec j (net_calls w)) as [->|Hne].
    + exists e. split; assumption.
    + apply (IH (set_net_calls (S (net_calls w)) w)); cbn; [lia | exact Hhi].
Qed.

(** A call that raised anything else is the last one: the error is drawn and
    [None] returned. *)
Lemma attempt_loop_other_stops location_name retries timeout attempts w j e :
  (net_calls w <= j)%nat ->
  (j < net_calls (snd (attempt_loop location_name retries timeout attempts w)))%nat ->
  geolocator_geocode j location_name timeout = Raised e ->
  caught_by_line_82 e = false ->
  attempt_loop location_name retries timeout attempts w
  = (None, set_page (page w ++ [GeocodeError location_name e])
             (set_net_calls (S j) w)).
Proof.
  revert w. induction attempts as [|attempt rest IH]; intros w Hlo Hhi Hj Hne.
  - cbn in Hhi. lia.
  - revert Hhi. loop_cases location_name timeout w;
      cbn [snd net_calls set_page set_net_calls]; intros Hhi.
    + assert (j = net_calls w) as -> by lia. congruence.
    + destruct (Nat.eq_dec j (net_calls w)) as [->|Hn]; [congruence|].
      rewrite (IH (set_net_calls (S (net_calls w)) w)); cbn; try lia; try assumption.
      reflexivity.
    + assert (j = net_calls w) as -> by lia. congruence.
    + assert (j = net_calls w) as -> by lia.
      assert (e0 = e) as -> by congruence. reflexivity.
Qed.

Lemma length_range (n : Z) : length (range n) = Z.to_nat n.
Proof. unfold range. rewrite length_map, length_seq. reflexivity. Qed.

(** When every call of the range raises what line 82 names, the last turn
    draws the warning with the last exception and returns [None]. *)
Lemma attempt_loop_exhausted location_name retries timeout (n k : nat) w :
  (0 < n)%nat ->
  (k + n = Z.to_nat retries)%nat ->
  (forall j, (j < n)%nat ->
     exists e, geolocator_geocode (net_calls w + j) location_name timeout = Raised e
               /\ caught_by_line_82 e = true) ->
  exists e,
    geolocator_geocode (net_calls w + n - 1) location_name timeout = Raised e
    /\ attempt_loop location_name retries timeout (map Z.of_nat (seq k n)) w
       = (None, set_page (page w ++ [GeocodeWarning location_name retries e])
                  (set_net_calls (net_calls w + n) w)).
Proof.
  revert k w. induction n as [|n IH]; intros k w Hn Hk Hall; [lia|].
  destruct (Hall 0%nat ltac:(lia)) as (e & Ho & He).
  rewrite Nat.add_0_r in Ho. cbn [seq map].
  destruct (Z.of_nat k <? retries - 1) eqn:Ha.
  - rewrite (attempt_loop_again _ _ _ _ _ _ _ Ho He Ha).
    apply Z.ltb_lt in Ha.
    destruct (IH (S k) (set_net_calls (S (net_calls w)) w)) as (e' & Ho' & Hrun).
    + lia.
    + lia.
    + intros j Hj. cbn. replace (S (net_calls w + j)) with (net_calls w + S j)%nat by lia.
      apply Hall. lia.
    + exists e'. cbn in Ho', Hrun.
      replace (net_calls w + S n - 1)%nat with (S (net_calls w) + n - 1)%nat by lia.
      split; [exact Ho'|]. rewrite Hrun. unfold set_page, set_net_calls; cbn.
      do 3 f_equal. lia.
  - rewrite (attempt_loop_give_up _ _ _ _ _ _ _ Ho He Ha).
    apply Z.ltb_ge in Ha. assert (n = 0)%nat as -> by lia.
    exists e. replace (net_calls w + 1 - 1)%nat with (net_calls w) by lia.
    split; [exact Ho|]. unfold set_page, set_net_calls; cbn.
    do 3 f_equal. lia.
Qed.

Lemma truthy_str_true (s : string) : truthy_str s = true <-> s <> "".
Proof. destruct s; cbn; split; congruence. Qed.

(** *** The cache *)

Lemma cache_read_Some now key w entry :
  cache_read now key w = Some entry <->
  cache w !! key = Some entry /\ now < expires entry.
Proof.
  unfold cache_read. destruct (cache w !! key) as [e0|]; [|split; [|intros []]; congruence].
  destruct (now <? expires e0) eqn:Hlt.
  - apply Z.ltb_lt in Hlt. split; [intros [= <-]; auto | intros [[= <-] _]; auto].
  - apply Z.ltb_ge in Hlt. split; [congruence | intros [[= <-] ?]; lia].
Qed.

(** A hit: the stored value, the stored elements drawn again, no call. *)
Lemma cached_hit now location_name w entry :
  cache_read now location_name w = Some entry ->
  cached_geocode_location now location_name w
  = (value entry, set_page (page w ++ messages entry) w).
Proof. intros H. unfold cached_geocode_location. rewrite H. reflexivity. Qed.

(** A miss: the function runs, and its result is stored whatever it is. *)
Lemma cached_miss now location_name w :
  cache_read now location_name w = None ->
  cached_geocode_location now location_name w
  = let run := geocode_location location_name 3 10 (set_page [] w) in
    (fst run,
     {| net_calls := net_calls (snd run);
        cache := <[location_name := {| value := fst run;
                                       messages := page (snd run);
                                       expires := now + ttl |}]> (cache w);
        itinerary := itinerary w;
        page := page w ++ page (snd run) |}).
Proof.
  intros H. unfold cached_geocode_location. rewrite H. cbv zeta.
  unfold geocode_location.
  destruct (attempt_loop_frame location_name 3 10 (range 3) (set_page [] w))
    as [Hc Hi].
  destruct (attempt_loop location_name 3 10 (range 3) (set_page [] w)) as [r w'].
  cbn in Hc, Hi |- *. unfold set_page, set_cache; cbn. rewrite Hc, Hi. reflexivity.
Qed.

(** After [resolve] of a given name there is an entry under it that has not
    ended and holds the value just returned. *)
Lemma resolve_entry now location_name w :
  location_name <> "" ->
  exists entry,
    cache (snd (resolve now location_name w)) !! location_name = Some entry
    /\ value entry = fst (resolve now location_name w)
    /\ now < expires entry.
Proof.
  intros Hq. unfold resolve. apply truthy_str_true in Hq. rewrite Hq.
  destruct (cache_read now location_name w) as [entry|] eqn:Hr.
  - rewrite (cached_hit _ _ _ _ Hr). apply cache_read_Some in Hr as [Hl Ht].
    exists entry. cbn. auto.
  - rewrite (cached_miss _ _ _ Hr). cbn.
    eexists. rewrite lookup_insert_eq. split; [reflexivity|].
    cbn. split; [reflexivity | unfold ttl; lia].
Qed.

(** [resolve] leaves the entries of all other names as they are. *)
Lemma resolve_other_keys now location_name w key :
  key <> location_name ->
  cache (snd (resolve now location_name w)) !! key = cache w !! key.
Proof.
  intros Hk. unfold resolve. destruct (truthy_str location_name); [|reflexivity].
  destruct (cache_read now location_name w) as [entry|] eqn:Hr.
  - rewrite (cached_hit _ _ _ _ Hr). reflexivity.
  - rewrite (cached_miss _ _ _ Hr). cbn. apply lookup_insert_ne. congruence.
Qed.

(** While an entry lasts, [resolve] answers from it. *)
Lemma resolve_hit now location_name w entry :
  location_name <> "" ->
  cache w !! location_name = Some entry ->
  now < expires entry ->
  resolve now location_name w
  = (value entry, set_page (page w ++ messages entry) w).
Proof.
  intros Hq Hl Ht. unfold resolve. apply truthy_str_true in Hq. rewrite Hq.
  apply cached_hit. apply cache_read_Some. auto.
Qed.

(** ** The claims about [geocode_location] and its cache *)

(** The retry policy by handler.  [geocode_location] makes at most [retries]
    calls of the geocoder (none when [retries] is not positive); every call
    but its last one raised
    [GeocoderTimedOut] or [GeocoderServiceError]; a call that raises any other
    exception is the last one, the error is drawn at once and [None] returned.
    As [main] calls it, with the default of 3, one [resolve] makes at most 3
    calls. *)
Theorem geocode_location_retry_policy location_name retries timeout now w :
  let run := geocode_location location_name retries timeout w in
  let first := net_calls w in
  let made := (net_calls (snd run) - first)%nat in
  (first <= net_calls (snd run))%nat
  /\ Z.of_nat made <= Z.max 0 retries
  /\ (forall j, (S j < made)%nat ->
        exists msg,
          geolocator_geocode (first + j) location_name timeout
            = Raised (GeocoderTimedOut msg)
          \/ geolocator_geocode (first + j) location_name timeout
            = Raised (GeocoderServiceError msg))
  /\ (forall j msg, (j < made)%nat ->
        geolocator_geocode (first + j) location_name timeout
          = Raised (OtherException msg) ->
        run = (None,
               set_page (page w ++ [GeocodeError location_name (OtherException msg)])
                 (set_net_calls (S (first + j)) w)))
  /\ (net_calls (snd (resolve now location_name w)) - first <= 3)%nat.
Proof.
  cbv zeta. unfold geocode_location.
  pose proof (attempt_loop_calls location_name retries timeout (range retries) w)
    as Hcalls.
  rewrite length_range in Hcalls.
  split; [lia|]. split; [lia|]. split; [|split].
  - intros j Hj.
    destruct (attempt_loop_retries_only location_name retries timeout
                (range retries) w (net_calls w + j)) as (e & Ho & He); [lia|lia|].
    destruct e as [msg|msg|msg]; [exists msg; auto..|discriminate].
  - intros j msg Hj Ho.
    apply attempt_loop_other_stops; [lia|lia|exact Ho|reflexivity].
  - unfold resolve. destruct (truthy_str location_name); [|cbn; lia].
    destruct (cache_read now location_name w) as [entry|] eqn:Hr.
    + rewrite (cached_hit _ _ _ _ Hr). cbn. lia.
    + rewrite (cached_miss _ _ _ Hr). cbv zeta. cbn [fst snd net_calls].
      unfold geocode_location.
      pose proof (attempt_loop_calls location_name 3 10 (range 3) (set_page [] w))
        as H3.
      rewrite length_range in H3. cbn [net_calls set_page] in H3. lia.
Qed.


(** C8.  When [resolve] of a name returns a [Location], the cache holds an
    entry under that name with that [Location], ending 3600 after the call
    when the call was a miss.  Until the entry ends, a later [resolve] of the
    name returns the same [Location] with the call counter and the cache
    unchanged.  A [resolve] of any other name leaves that entry as it is, so
    the first name still gets its own [Location] afterwards, and a non-empty
    other name gets an entry of its own with its own result. *)
Theorem cache_hit_is_identical_and_keyed_by_name now x w c :
  fst (resolve now x w) = Some c ->
  let w1 := snd (resolve now x w) in
  exists entry,
    cache w1 !! x = Some entry
    /\ value entry = Some c
    /\ now < expires entry
    /\ (cache_read now x w = None -> expires entry = now + 3600)
    /\ (forall later, later < expires entry ->
          resolve later x w1 = (Some c, set_page (page w1 ++ messages entry) w1))
    /\ (forall y t, y <> x ->
          let w2 := snd (resolve t y w1) in
          cache w2 !! x = Some entry
          /\ (forall later, later < expires entry ->
                fst (resolve later x w2) = Some c
                /\ net_calls (snd (resolve later x w2)) = net_calls w2)
          /\ (y <> "" ->
                exists entry_y, cache w2 !! y = Some entry_y
                                /\ value entry_y = fst (resolve t y w1))).
Proof.
  intros Hc. cbv zeta.
  assert (x <> "") as Hx.
  { intros ->. cbn in Hc. discriminate. }
  destruct (resolve_entry now x w Hx) as (entry & Hl & Hv & Ht).
  exists entry. rewrite Hc in Hv.
  split; [exact Hl|]. split; [exact Hv|]. split; [exact Ht|].
  split; [|split].
  - intros Hmiss. revert Hl. unfold resolve.
    apply truthy_str_true in Hx. rewrite Hx, (cached_miss _ _ _ Hmiss).
    cbn. rewrite lookup_insert_eq. intros [= <-]. reflexivity.
  - intros later Hlater. rewrite (resolve_hit later x _ entry Hx Hl Hlater).
    rewrite Hv. reflexivity.
  - intros y t Hy.
    assert (cache (snd (resolve t y (snd (resolve now x w)))) !! x = Some entry)
      as Hkeep.
    { rewrite resolve_other_keys; [exact Hl | congruence]. }
    split; [exact Hkeep|]. split.
    + intros later Hlater.
      rewrite (resolve_hit later x _ entry Hx Hkeep Hlater). rewrite Hv.
      split; reflexivity.
    + intros Hyne.
      destruct (resolve_entry t y (snd (resolve now x w)) Hyne)
        as (entry_y & Hly & Hvy & _).
      exists entry_y. split; assumption.
Qed.


(** ** The claims about the map block *)

Lemma main_unfold now (form : TripForm) (clicked : bool) w :
  main now form clicked w
  = map_block (starting_location form) (destination form)
      (fst (fst (main_until_map now form clicked w)))
      (snd (fst (main_until_map now form clicked w)))
      (snd (main_until_map now form clicked w)).
Proof.
  unfold main, bind.
  destruct (main_until_map now form clicked w) as [coords w2]. reflexivity.
Qed.

(** C9.  For the empty input [resolve] returns [None] and leaves the world as
    it is: no call of the geocoder, no write to the cache, nothing drawn.  So
    a run of [main] with both inputs empty, button clicked or not, makes no
    call and leaves the cache as it was. *)
Theorem resolve_empty_is_immediate now w :
  resolve now "" w = (None, w)
  /\ (forall (form : TripForm) (clicked : bool),
        starting_location form = "" ->
        destination form = "" ->
        fst (main_until_map now form clicked w) = (None, None)
        /\ net_calls (snd (main now form clicked w)) = net_calls w
        /\ cache (snd (main now form clicked w)) = cache w).
Proof.
  split; [reflexivity|]. intros form clicked Hs Hd.
  rewrite main_unfold. unfold main_until_map, button_block, bind.
  rewrite Hs, Hd. destruct clicked; cbn; repeat split; reflexivity.
Qed.

(** What the block draws when a coordinate is there: the map first. *)
Lemma map_block_draws_map (starting_location destination : string)
    (starting_loc_coords destination_loc_coords : option Location) w :
  truthy starting_loc_coords || truthy destination_loc_coords = true ->
  exists rest,
    page (snd (map_block starting_location destination
                 starting_loc_coords destination_loc_coords w))
    = page w ++ StFolium (create_map starting_location destination
                            starting_loc_coords destination_loc_coords) 700 500
             :: rest.
Proof.
  intros H. unfold map_block, bind, st. rewrite H. cbn.
  destruct (itinerary w) as [body|]; [destruct (truthy_str body)|]; cbn.
  - exists [Markdown body]. rewrite <- app_assoc. reflexivity.
  - exists []. reflexivity.
  - exists []. reflexivity.
Qed.

(** C5.  With both coordinates present the map is centred on the
    destination, has the marker of the starting location first and the red
    marker of the destination second and nothing else, and is fitted to the
    bounds [start, destination]; this map is what the block draws. *)
Theorem both_present_map (starting_location destination : string)
    (s d : Location) w :
  let m := create_map starting_location destination (Some s) (Some d) in
  location m = (latitude d, longitude d)
  /\ markers m
     = [ {| marker_location := (latitude s, longitude s);
            tooltip := starting_location;
            icon_color := None |};
         {| marker_location := (latitude d, longitude d);
            tooltip := destination;
            icon_color := Some "red" |} ]
  /\ bounds m = Some ((latitude s, longitude s), (latitude d, longitude d))
  /\ exists rest,
       page (snd (map_block starting_location destination (Some s) (Some d) w))
       = page w ++ StFolium m 700 500 :: rest.
Proof.
  cbv zeta. repeat split. apply map_block_draws_map. reflexivity.
Qed.

(** C6.  With exactly one coordinate present the map is centred on it, has
    zoom 10, the one marker of that coordinate and no bounds; this map is
    what the block draws. *)
Theorem one_present_map (starting_location destination : string)
    (c : Location) w :
  create_map starting_location destination (Some c) None
  = {| location := (latitude c, longitude c);
       zoom_start := 10;
       markers := [ {| marker_location := (latitude c, longitude c);
                       tooltip := starting_location;
                       icon_color := None |} ];
       bounds := None |}
  /\ create_map starting_location destination None (Some c)
     = {| location := (latitude c, longitude c);
          zoom_start := 10;
          markers := [ {| marker_location := (latitude c, longitude c);
                          tooltip := destination;
                          icon_color := Some "red" |} ];
          bounds := None |}
  /\ (exists rest,
        page (snd (map_block starting_location destination (Some c) None w))
        = page w ++ StFolium (create_map starting_location destination
                                (Some c) None) 700 500 :: rest)
  /\ (exists rest,
        page (snd (map_block starting_location destination None (Some c) w))
        = page w ++ StFolium (create_map starting_location destination
                                None (Some c)) 700 500 :: rest).
Proof.
  repeat split; apply map_block_draws_map; reflexivity.
Qed.

(** C7.  With both coordinates absent the block builds and draws no map: it
    draws the prompt to enter a location and nothing else; so does a run of
    [main] in which both resolutions came back with [None]. *)
Theorem both_absent_no_map (starting_location destination : string)
    now (form : TripForm) (clicked : bool) w :
  map_block starting_location destination None None w
  = (tt, set_page
           (page w ++ [Info "Enter a starting location or destination to see the map."])
           w)
  /\ (fst (main_until_map now form clicked w) = (None, None) ->
      let w2 := snd (main_until_map now form clicked w) in
      main now form clicked w
      = (tt, set_page
               (page w2 ++ [Info "Enter a starting location or destination to see the map."])
               w2)).
Proof.
  split; [reflexivity|]. intros H. cbv zeta. rewrite main_unfold, H. reflexivity.
Qed.

(** C1, as amended.  When the session holds a non-empty itinerary at the map
    block and at least one of the two resolutions returned a coordinate, the
    run ends with the map followed by the itinerary; when both returned
    [None] the run ends with the prompt alone. *)
Theorem itinerary_is_drawn_with_the_map now (form : TripForm) (clicked : bool)
    w (body : string) :
  let coords := fst (main_until_map now form clicked w) in
  let w2 := snd (main_until_map now form clicked w) in
  itinerary w2 = Some body ->
  body <> "" ->
  (coords <> (None, None) ->
     main now form clicked w
     = (tt, set_page
              (page w2 ++ [StFolium (create_map (starting_location form)
                                       (destination form) (fst coords) (snd coords))
                             700 500;
                           Markdown body])
              w2))
  /\ (coords = (None, None) ->
      main now form clicked w
      = (tt, set_page
               (page w2 ++ [Info "Enter a starting location or destination to see the map."])
               w2)).
Proof.
  cbv zeta. intros Hit Hbody. rewrite main_unfold.
  destruct (main_until_map now form clicked w) as [[s d] w2]. cbn [fst snd] in *.
  apply truthy_str_true in Hbody. split.
  - intros Hsome.
    assert (truthy s || truthy d = true) as Hor.
    { destruct s, d; try reflexivity. congruence. }
    unfold map_block, bind, st. rewrite Hor. cbn. rewrite Hit, Hbody. cbn.
    rewrite <- app_assoc. reflexivity.
  - intros [= -> ->]. reflexivity.
Qed.

(** ** More on the retry loop *)

(** The loop over the rest of the range, when [k] calls raise what line 82
    names and the next one returns. *)
Lemma attempt_loop_answer_after location_name retries timeout (k n i : nat) w r :
  (k < n)%nat ->
  (i + n = Z.to_nat retries)%nat ->
  (forall j, (j < k)%nat ->
     exists e, geolocator_geocode (net_calls w + j) location_name timeout = Raised e
               /\ caught_by_line_82 e = true) ->
  geolocator_geocode (net_calls w + k) location_name timeout = Returned r ->
  attempt_loop location_name retries timeout (map Z.of_nat (seq i n)) w
  = (r, set_net_calls (net_calls w + k + 1) w).
Proof.
  revert n i w. induction k as [|k IH]; intros n i w Hk Hn Hfail Hret.
  - destruct n as [|n]; [lia|]. cbn [seq map].
    rewrite Nat.add_0_r in Hret.
    rewrite (attempt_loop_returned _ _ _ _ _ _ _ Hret).
    unfold set_net_calls. do 2 f_equal. lia.
  - destruct n as [|n]; [lia|]. cbn [seq map].
    destruct (Hfail 0%nat ltac:(lia)) as (e & Ho & He).
    rewrite Nat.add_0_r in Ho.
    assert ((Z.of_nat i <? retries - 1) = true) as Ha by (apply Z.ltb_lt; lia).
    rewrite (attempt_loop_again _ _ _ _ _ _ _ Ho He Ha).
    rewrite (IH n (S i) (set_net_calls (S (net_calls w)) w)).
    + unfold set_net_calls; cbn. do 2 f_equal. lia.
    + lia.
    + lia.
    + intros j Hj. cbn.
      replace (S (net_calls w + j)) with (net_calls w + S j)%nat by lia.
      apply Hfail. lia.
    + cbn. replace (S (net_calls w + k)) with (net_calls w + S k)%nat by lia.
      exact Hret.
Qed.

(** X1.  When the first [k] calls raise [GeocoderTimedOut] or
    [GeocoderServiceError] and call [k + 1] is within [retries] and returns,
    [geocode_location] returns what that call returned after exactly [k + 1]
    calls and draws nothing: the failures before it leave no trace. *)
Theorem transient_failures_leave_no_trace location_name retries timeout (k : nat) w r :
  Z.of_nat k < retries ->
  (forall j, (j < k)%nat ->
     exists e, geolocator_geocode (net_calls w + j) location_name timeout = Raised e
               /\ caught_by_line_82 e = true) ->
  geolocator_geocode (net_calls w + k) location_name timeout = Returned r ->
  geocode_location location_name retries timeout w
  = (r, set_net_calls (net_calls w + k + 1) w).
Proof.
  intros Hk Hfail Hret. unfold geocode_location, range.
  apply (attempt_loop_answer_after location_name retries timeout k
           (Z.to_nat retries) 0 w r); [lia | lia | exact Hfail | exact Hret].
Qed.

(** X2.  When [retries] is positive and every one of the [retries] calls
    raises [GeocoderTimedOut] or [GeocoderServiceError], [geocode_location]
    makes exactly [retries] calls, draws one warning, which carries [retries]
    and the exception of the last call, and returns [None]. *)
Theorem retries_exhausted location_name retries timeout w :
  0 < retries ->
  (forall j, (j < Z.to_nat retries)%nat ->
     exists e, geolocator_geocode (net_calls w + j) location_name timeout = Raised e
               /\ caught_by_line_82 e = true) ->
  exists e,
    geolocator_geocode (net_calls w + Z.to_nat retries - 1) location_name timeout
    = Raised e
    /\ geocode_location location_name retries timeout w
       = (None, set_page (page w ++ [GeocodeWarning location_name retries e])
                  (set_net_calls (net_calls w + Z.to_nat retries) w)).
Proof.
  intros Hpos Hall. unfold geocode_location, range.
  apply attempt_loop_exhausted; [lia | lia | exact Hall].
Qed.

(** X3.  With [retries] zero or negative the range is empty:
    [geocode_location] returns [None] without a call and without drawing,
    whatever the geocoder would have answered. *)
Theorem no_retries_no_lookup location_name retries timeout w :
  retries <= 0 ->
  geocode_location location_name retries timeout w = (None, w).
Proof.
  intros H. unfold geocode_location, range.
  replace (Z.to_nat retries) with 0%nat by lia. reflexivity.
Qed.

(** What the loop draws: nothing beside a returned [Location], else at most
    one element, a message for this name. *)
Lemma attempt_loop_drawn location_name retries timeout attempts w :
  exists drawn,
    page (snd (attempt_loop location_name retries timeout attempts w))
    = page w ++ drawn
    /\ (length drawn <= 1)%nat
    /\ Forall (fun e => is_geocode_message location_name e = true) drawn
    /\ (fst (attempt_loop location_name retries timeout attempts w) <> None ->
        drawn = []).
Proof.
  revert w. induction attempts as [|attempt rest IH]; intros w.
  - exists []. cbn. rewrite app_nil_r. repeat split; auto.
  - loop_cases location_name timeout w.
    + exists []. cbn. rewrite app_nil_r. repeat split; auto.
    + destruct (IH (set_net_calls (S (net_calls w)) w))
        as (drawn & Hp & Hlen & Hall & Hsome).
      exists drawn. repeat split; assumption.
    + eexists. cbn. split; [reflexivity|]. split; [cbn; lia|]. split.
      * constructor; [cbn; apply String.eqb_refl | constructor].
      * intros H. congruence.
    + eexists. cbn. split; [reflexivity|]. split; [cbn; lia|]. split.
      * constructor; [cbn; apply String.eqb_refl | constructor].
      * intros H. congruence.
Qed.

(** X4.  [geocode_location] never touches the cache or the session's
    itinerary and never lowers the call counter; to the page it adds nothing
    when it returns a [Location], and otherwise at most one element, which is
    the warning or the error for this very name. *)
Theorem geocode_location_footprint location_name retries timeout w :
  let run := geocode_location location_name retries timeout w in
  cache (snd run) = cache w
  /\ itinerary (snd run) = itinerary w
  /\ (net_calls w <= net_calls (snd run))%nat
  /\ exists drawn,
       page (snd run) = page w ++ drawn
       /\ (length drawn <= 1)%nat
       /\ Forall (fun e => is_geocode_message location_name e = true) drawn
       /\ (fst run <> None -> drawn = []).
Proof.
  cbv zeta. unfold geocode_location.
  destruct (attempt_loop_frame location_name retries timeout (range retries) w)
    as [Hc Hi].
  pose proof (attempt_loop_calls location_name retries timeout (range retries) w)
    as Hn.
  split; [exact Hc|]. split; [exact Hi|]. split; [lia|].
  apply attempt_loop_drawn.
Qed.

(** ** More on the cache *)

Lemma resolve_nonempty now location_name w :
  location_name <> "" ->
  resolve now location_name w = cached_geocode_location now location_name w.
Proof. intros H. unfold resolve. apply truthy_str_true in H. rewrite H. reflexivity. Qed.

(** One [resolve] makes between no and three calls. *)
Lemma resolve_calls now location_name w :
  (net_calls w <= net_calls (snd (resolve now location_name w)) <= net_calls w + 3)%nat.
Proof.
  unfold resolve. destruct (truthy_str location_name); [|cbn; lia].
  destruct (cache_read now location_name w) as [entry|] eqn:Hr.
  - rewrite (cached_hit _ _ _ _ Hr). cbn. lia.
  - rewrite (cached_miss _ _ _ Hr). cbv zeta. cbn [fst snd net_calls].
    unfold geocode_location.
    pose proof (attempt_loop_calls location_name 3 10 (range 3) (set_page [] w))
      as H3.
    rewrite length_range in H3. cbn [net_calls set_page] in H3. lia.
Qed.

Lemma resolve_itinerary now location_name w :
  itinerary (snd (resolve now location_name w)) = itinerary w.
Proof.
  unfold resolve. destruct (truthy_str location_name); [|reflexivity].
  destruct (cache_read now location_name w) as [entry|] eqn:Hr.
  - rewrite (cached_hit _ _ _ _ Hr). reflexivity.
  - rewrite (cached_miss _ _ _ Hr). reflexivity.
Qed.

(** [resolve] may replace an entry but never drops one. *)
Lemma resolve_keeps_keys now location_name w key :
  is_Some (cache w !! key) ->
  is_Some (cache (snd (resolve now location_name w)) !! key).
Proof.
  intros Hk. destruct (decide (key = location_name)) as [->|Hne].
  - unfold resolve. destruct (truthy_str location_name); [|exact Hk].
    destruct (cache_read now location_name w) as [entry|] eqn:Hr.
    + rewrite (cached_hit _ _ _ _ Hr). exact Hk.
    + rewrite (cached_miss _ _ _ Hr). cbn. rewrite lookup_insert_eq. eauto.
  - rewrite resolve_other_keys; assumption.
Qed.

(** X5.  An entry that has ended is not served: when the cache holds an
    entry for a non-empty name whose end is not after [now], [resolve] runs
    [geocode_location] again, returns what that run returns, whatever the old
    entry held, and puts the result in the old entry's place with the end
    [now + 3600]. *)
Theorem expired_entry_is_looked_up_again now location_name w (old : CachedResult) :
  location_name <> "" ->
  cache w !! location_name = Some old ->
  expires old <= now ->
  let run := geocode_location location_name 3 10 (set_page [] w) in
  fst (resolve now location_name w) = fst run
  /\ net_calls (snd (resolve now location_name w)) = net_calls (snd run)
  /\ cache (snd (resolve now location_name w))
     = <[location_name := {| value := fst run;
                             messages := page (snd run);
                             expires := now + 3600 |}]> (cache w).
Proof.
  intros Hq Hold Hexp. cbv zeta.
  assert (cache_read now location_name w = None) as Hmiss.
  { unfold cache_read. rewrite Hold.
    destruct (now <? expires old) eqn:Hlt; [apply Z.ltb_lt in Hlt; lia | reflexivity]. }
  rewrite (resolve_nonempty _ _ _ Hq), (cached_miss _ _ _ Hmiss).
  repeat split.
Qed.

(** ** More on a run of [main] *)

(** The button block touches neither the call counter nor the cache. *)
Lemma at_line_92_frame (form : TripForm) (clicked : bool) w :
  net_calls (at_line_92 form clicked w) = net_calls w
  /\ cache (at_line_92 form clicked w) = cache w.
Proof.
  unfold at_line_92, button_block, generate_itinerary, bind, st.
  destruct clicked; cbn; [|split; reflexivity].
  destruct (truthy_str (destination form)); cbn; [|split; reflexivity].
  destruct (generate_content form); cbn; split; reflexivity.
Qed.

Lemma main_until_map_unfold now (form : TripForm) (clicked : bool) w :
  main_until_map now form clicked w
  = let first := resolve now (starting_location form) (at_line_92 form clicked w) in
    let second := resolve now (destination form) (snd first) in
    ((fst first, fst second), snd second).
Proof.
  unfold main_until_map, at_line_92, bind. cbv zeta.
  destruct (button_block form clicked (set_page [] w)) as [[] w0].
  cbn [st snd].
  destruct (resolve now (starting_location form) _) as [s w1]. cbn [fst snd].
  destruct (resolve now (destination form) w1) as [d w2]. reflexivity.
Qed.

Lemma main_frame now (form : TripForm) (clicked : bool) w :
  net_calls (snd (main now form clicked w))
  = net_calls (snd (main_until_map now form clicked w))
  /\ cache (snd (main now form clicked w))
     = cache (snd (main_until_map now form clicked w))
  /\ itinerary (snd (main now form clicked w))
     = itinerary (snd (main_until_map now form clicked w)).
Proof.
  rewrite main_unfold.
  destruct (main_until_map now form clicked w) as [[s d] w2]. cbn [fst snd].
  unfold map_block, bind, st.
  destruct (truthy s || truthy d); cbn; [|auto].
  destruct (itinerary w2) as [body|] eqn:Hit; [destruct (truthy_str body)|];
    cbn; auto.
Qed.


(** X7.  A run of [main] makes at most 6 calls of the geocoder, never lowers
    the call counter, and never drops a name from the cache. *)
Theorem main_calls_and_keys now (form : TripForm) (clicked : bool) w :
  (net_calls w <= net_calls (snd (main now form clicked w)) <= net_calls w + 6)%nat
  /\ (forall key, is_Some (cache w !! key) ->
        is_Some (cache (snd (main now form clicked w)) !! key)).
Proof.
  destruct (main_frame now form clicked w) as (Hn & Hc & _).
  rewrite Hn, Hc, main_until_map_unfold. cbv zeta. cbn [fst snd].
  destruct (at_line_92_frame form clicked w) as [Hn0 Hc0].
  pose proof (resolve_calls now (starting_location form) (at_line_92 form clicked w))
    as H1.
  pose proof (resolve_calls now (destination form)
                (snd (resolve now (starting_location form)
                        (at_line_92 form clicked w)))) as H2.
  split; [lia|]. intros key Hk.
  apply resolve_keeps_keys, resolve_keeps_keys. rewrite Hc0. exact Hk.
Qed.

(** A name that needs no lookup at [now]: it is empty, or the cache holds an
    entry for it that has not ended. *)
Lemma resolve_without_lookup now location_name w (v : option Location) :
  (location_name = "" /\ v = None
   \/ location_name <> ""
      /\ exists entry, cache w !! location_name = Some entry
                       /\ now < expires entry /\ value entry = v) ->
  fst (resolve now location_name w) = v
  /\ net_calls (snd (resolve now location_name w)) = net_calls w
  /\ cache (snd (resolve now location_name w)) = cache w.
Proof.
  intros [[-> ->]|(Hne & entry & Hl & Ht & Hv)]; [repeat split|].
  rewrite (resolve_hit now location_name w entry Hne Hl Ht). cbn. auto.
Qed.

(** X8.  When each input is empty or has an entry in the cache that has not
    ended, a run of [main] makes no call of the geocoder and leaves the cache
    as it was: both coordinates come from the cache ([None] for an empty
    input). *)
Theorem warm_cache_run_makes_no_call now (form : TripForm) (clicked : bool) w
    (s d : option Location) :
  (starting_location form = "" /\ s = None
   \/ starting_location form <> ""
      /\ exists entry, cache w !! starting_location form = Some entry
                       /\ now < expires entry /\ value entry = s) ->
  (destination form = "" /\ d = None
   \/ destination form <> ""
      /\ exists entry, cache w !! destination form = Some entry
                       /\ now < expires entry /\ value entry = d) ->
  fst (main_until_map now form clicked w) = (s, d)
  /\ net_calls (snd (main now form clicked w)) = net_calls w
  /\ cache (snd (main now form clicked w)) = cache w.
Proof.
  intros Hs Hd. destruct (main_frame now form clicked w) as (Hn & Hc & _).
  rewrite Hn, Hc, main_until_map_unfold. cbv zeta. cbn [fst snd].
  destruct (at_line_92_frame form clicked w) as [Hn0 Hc0].
  rewrite <- Hc0 in Hs, Hd.
  destruct (resolve_without_lookup now (starting_location form)
              (at_line_92 form clicked w) s Hs) as (Hv1 & Hn1 & Hc1).
  rewrite <- Hc1 in Hd.
  destruct (resolve_without_lookup now (destination form) _ d Hd)
    as (Hv2 & Hn2 & Hc2).
  rewrite Hv1, Hv2, Hn2, Hn1, Hc2, Hc1. auto.
Qed.


(** [resolve] keeps the cache well formed, and in a well-formed cache it
    draws only what [geocode_location] drew for this name. *)
Lemma resolve_cache_ok now location_name w :
  cache_ok w -> cache_ok (snd (resolve now location_name w)).
Proof.
  intros Hok. unfold resolve. destruct (truthy_str location_name); [|exact Hok].
  destruct (cache_read now location_name w) as [entry|] eqn:Hr.
  - rewrite (cached_hit _ _ _ _ Hr). exact Hok.
  - rewrite (cached_miss _ _ _ Hr). cbv zeta. cbn [snd].
    intros key e. cbn [cache].
    destruct (decide (location_name = key)) as [<-|Hne].
    + rewrite lookup_insert_eq. intros [= <-].
      unfold geocode_location.
      destruct (attempt_loop_drawn location_name 3 10 (range 3) (set_page [] w))
        as (drawn & Hp & Hlen & Hall & Hsome).
      cbn [page set_page app] in Hp.
      unfold entry_ok. cbn [value messages]. rewrite Hp. auto.
    + rewrite lookup_insert_ne by exact Hne. apply Hok.
Qed.

Lemma resolve_drawn now location_name w :
  cache_ok w ->
  exists drawn,
    page (snd (resolve now location_name w)) = page w ++ drawn
    /\ (length drawn <= 1)%nat
    /\ Forall (fun e => is_geocode_message location_name e = true) drawn
    /\ (fst (resolve now location_name w) <> None -> drawn = []).
Proof.
  intros Hok. unfold resolve. destruct (truthy_str location_name).
  - destruct (cache_read now location_name w) as [entry|] eqn:Hr.
    + rewrite (cached_hit _ _ _ _ Hr). apply cache_read_Some in Hr as [Hl _].
      destruct (Hok _ _ Hl) as (Hlen & Hall & Hsome).
      exists (messages entry). cbn. auto.
    + rewrite (cached_miss _ _ _ Hr). cbv zeta. cbn [fst snd page].
      unfold geocode_location.
      destruct (attempt_loop_drawn location_name 3 10 (range 3) (set_page [] w))
        as (drawn & Hp & Hlen & Hall & Hsome).
      cbn [page set_page app] in Hp. exists drawn. rewrite Hp. auto.
  - exists []. cbn. rewrite app_nil_r. auto.
Qed.

(** X10.  A run of [main] keeps the cache well formed: when every entry
    holds at most one drawn element, a warning or error of [geocode_location]
    for the entry's own name, and none beside a [Location], the same is true
    after the run. *)
Theorem main_keeps_cache_ok now (form : TripForm) (clicked : bool) w :
  cache_ok w -> cache_ok (snd (main now form clicked w)).
Proof.
  intros Hok. destruct (main_frame now form clicked w) as (_ & Hc & _).
  intros key entry. rewrite Hc, main_until_map_unfold. cbv zeta. cbn [fst snd].
  apply resolve_cache_ok, resolve_cache_ok.
  intros k e. destruct (at_line_92_frame form clicked w) as [_ Hc0].
  rewrite Hc0. apply Hok.
Qed.

(** ** What a run shows *)

Lemma at_line_92_page (form : TripForm) (clicked : bool) w :
  page (at_line_92 form clicked w)
  = (if clicked then
       if truthy_str (destination form) then
         GeneratingSubheader (destination form)
         :: match generate_content form with
            | Text _ => []
            | Failed e => [ItineraryError e]
            end
       else [SidebarError "Please enter a destination."]
     else [])
    ++ [Subheader "Explore on Map"].
Proof.
  unfold at_line_92, button_block, generate_itinerary, bind, st.
  destruct clicked; cbn; [|reflexivity].
  destruct (truthy_str (destination form)); cbn; [|reflexivity].
  destruct (generate_content form); reflexivity.
Qed.

Lemma at_line_92_itinerary (form : TripForm) (clicked : bool) w :
  itinerary (at_line_92 form clicked w)
  = if clicked && truthy_str (destination form)
    then Some match generate_content form with
              | Text t => t
              | Failed _ => "Error: Could not generate itinerary."
              end
    else itinerary w.
Proof.
  unfold at_line_92, button_block, generate_itinerary, bind, st.
  destruct clicked; cbn; [|reflexivity].
  destruct (truthy_str (destination form)); cbn; [|reflexivity].
  destruct (generate_content form); reflexivity.
Qed.

Lemma main_until_map_itinerary now (form : TripForm) (clicked : bool) w :
  itinerary (snd (main_until_map now form clicked w))
  = itinerary (at_line_92 form clicked w).
Proof.
  rewrite main_until_map_unfold. cbv zeta. cbn [snd].
  rewrite !resolve_itinerary. reflexivity.
Qed.

(** Before the map block a run draws no element of the map block. *)
Lemma page_before_map_block now (form : TripForm) (clicked : bool) w :
  cache_ok w ->
  Forall (fun e => is_map_block_element e = false)
    (page (snd (main_until_map now form clicked w))).
Proof.
  intros Hok. rewrite main_until_map_unfold. cbv zeta. cbn [snd].
  set (w0 := at_line_92 form clicked w).
  assert (cache_ok w0) as Hok0.
  { intros k e. unfold w0. destruct (at_line_92_frame form clicked w) as [_ Hc].
    rewrite Hc. apply Hok. }
  destruct (resolve_drawn now (starting_location form) w0 Hok0)
    as (d1 & Hp1 & _ & Hall1 & _).
  destruct (resolve_drawn now (destination form) _
              (resolve_cache_ok now (starting_location form) w0 Hok0))
    as (d2 & Hp2 & _ & Hall2 & _).
  rewrite Hp2, Hp1. unfold w0. rewrite at_line_92_page.
  assert (forall n l, Forall (fun e => is_geocode_message n e = true) l ->
                      Forall (fun e => is_map_block_element e = false) l) as Hmsg.
  { intros n l H. induction H as [|e l He _ IH]; constructor; [|exact IH].
    destruct e; cbn in He |- *; congruence. }
  repeat apply Forall_app_2; try (eapply Hmsg; eassumption).
  - destruct clicked; [|constructor].
    destruct (truthy_str (destination form)); [|repeat constructor].
    destruct (generate_content form); repeat constructor.
  - repeat constructor.
Qed.

(** What the map block adds to the page. *)
Lemma map_block_page (starting_location destination : string)
    (s d : option Location) w :
  page (snd (map_block starting_location destination s d w))
  = page w
    ++ (if truthy s || truthy d then
          StFolium (create_map starting_location destination s d) 700 500
          :: match itinerary w with
             | Some body => if truthy_str body then [Markdown body] else []
             | None => []
             end
        else [Info "Enter a starting location or destination to see the map."]).
Proof.
  unfold map_block, bind, st. destruct (truthy s || truthy d); cbn; [|reflexivity].
  destruct (itinerary w) as [body|]; [destruct (truthy_str body)|]; cbn;
    rewrite <- ?app_assoc; reflexivity.
Qed.

(** X11.  In a run of [main] from a world with a well-formed cache: the
    itinerary is on the page exactly when a coordinate was resolved and the
    session holds a non-empty itinerary; the prompt to enter a location is on
    the page exactly when no coordinate was resolved; a map is on the page
    exactly when a coordinate was resolved, and then it is the map of
    [create_map], 700 by 500. *)
Theorem what_a_run_shows now (form : TripForm) (clicked : bool) w :
  cache_ok w ->
  let coords := fst (main_until_map now form clicked w) in
  let w' := snd (main now form clicked w) in
  (forall body,
     In (Markdown body) (page w') <->
     coords <> (None, None) /\ itinerary w' = Some body /\ body <> "")
  /\ (forall text,
        In (Info text) (page w') <->
        coords = (None, None)
        /\ text = "Enter a starting location or destination to see the map.")
  /\ (forall m width height,
        In (StFolium m width height) (page w') <->
        coords <> (None, None)
        /\ m = create_map (starting_location form) (destination form)
                 (fst coords) (snd coords)
        /\ width = 700 /\ height = 500).
Proof.
  intros Hok. cbv zeta.
  pose proof (page_before_map_block now form clicked w Hok) as Hpre.
  destruct (main_frame now form clicked w) as (_ & _ & Hit). rewrite Hit.
  rewrite main_unfold, map_block_page.
  destruct (main_until_map now form clicked w) as [[s d] w2]. cbn [fst snd] in *.
  rewrite Forall_forall in Hpre.
  assert (forall e, is_map_block_element e = true -> ~ In e (page w2)) as Hnot.
  { intros e He Hin. apply list_elem_of_In in Hin. apply Hpre in Hin. congruence. }
  assert (forall body, truthy_str body = true <-> body <> "") as Hstr
    by (intros; apply truthy_str_true).
  assert (truthy s || truthy d = true <-> (s, d) <> (None, None)) as Hsome.
  { destruct s, d; cbn; split; congruence. }
  assert (truthy s || truthy d = false <-> (s, d) = (None, None)) as Hnone.
  { destruct s, d; cbn; split; congruence. }
  split; [|split].
  - intros body. rewrite in_app_iff. split.
    + intros [Hin|Hin]; [destruct (Hnot (Markdown body) eq_refl Hin)|].
      destruct (truthy s || truthy d) eqn:Hor.
      * destruct Hin as [Hin|Hin]; [discriminate|].
        destruct (itinerary w2) as [b|]; [|destruct Hin].
        destruct (truthy_str b) eqn:Hb; [|destruct Hin].
        destruct Hin as [[= ->]|[]].
        split; [apply Hsome; reflexivity|]. split; [reflexivity|].
        apply Hstr. exact Hb.
      * destruct Hin as [Hin|[]]. discriminate.
    + intros (Hc & Hi & Hb). right. apply Hsome in Hc. apply Hstr in Hb.
      rewrite Hc, Hi, Hb. cbn. auto.
  - intros text. rewrite in_app_iff. split.
    + intros [Hin|Hin]; [destruct (Hnot (Info text) eq_refl Hin)|].
      destruct (truthy s || truthy d) eqn:Hor.
      * destruct Hin as [Hin|Hin]; [discriminate|].
        destruct (itinerary w2) as [b|]; [|destruct Hin].
        destruct (truthy_str b); [|destruct Hin].
        destruct Hin as [Hin|[]]. discriminate.
      * destruct Hin as [[= <-]|[]]. split; [apply Hnone; reflexivity | reflexivity].
    + intros [Hc ->]. right. apply Hnone in Hc. rewrite Hc. cbn. auto.
  - intros m width height. rewrite in_app_iff. split.
    + intros [Hin|Hin]; [destruct (Hnot (StFolium m width height) eq_refl Hin)|].
      destruct (truthy s || truthy d) eqn:Hor.
      * destruct Hin as [[= <- <- <-]|Hin].
        -- split; [apply Hsome; reflexivity | auto].
        -- destruct (itinerary w2) as [b|]; [|destruct Hin].
           destruct (truthy_str b); [|destruct Hin].
           destruct Hin as [Hin|[]]. discriminate.
      * destruct Hin as [Hin|[]]. discriminate.
    + intros (Hc & -> & -> & ->). right. apply Hsome in Hc. rewrite Hc.
      cbn. auto.
Qed.

(** X12.  A run of [main] changes the session's itinerary only when the
    button was clicked with a destination given; and it never clears it:
    a session that holds an itinerary holds one after every run. *)
Theorem itinerary_changes_only_on_a_click now (form : TripForm) (clicked : bool) w :
  (clicked = false \/ destination form = "" ->
     itinerary (snd (main now form clicked w)) = itinerary w)
  /\ (itinerary w <> None -> itinerary (snd (main now form clicked w)) <> None).
Proof.
  destruct (main_frame now form clicked w) as (_ & _ & Hit).
  rewrite Hit, main_until_map_itinerary, at_line_92_itinerary. split.
  - intros [-> | ->]; [reflexivity|]. rewrite andb_false_r. reflexivity.
  - intros H. destruct (clicked && truthy_str (destination form)); congruence.
Qed.

(** X13.  A click with a destination given replaces whatever the session
    held by the generated text, or, when the generator raises, by the fixed
    text "Error: Could not generate itinerary."; the exception goes no
    further: the run draws the subheader for the destination, then the error
    when there was one, and goes on with the map part. *)
Theorem click_stores_text_or_error_text now (form : TripForm) w :
  destination form <> "" ->
  itinerary (snd (main now form true w))
  = Some match generate_content form with
         | Text t => t
         | Failed _ => "Error: Could not generate itinerary."
         end
  /\ exists rest,
       page (snd (main now form true w))
       = GeneratingSubheader (destination form)
         :: match generate_content form with
            | Text _ => []
            | Failed e => [ItineraryError e]
            end
         ++ Subheader "Explore on Map" :: rest.
Proof.
  intros Hd. apply truthy_str_true in Hd.
  destruct (main_frame now form true w) as (_ & _ & Hit).
  rewrite Hit, main_until_map_itinerary, at_line_92_itinerary, Hd. cbn [andb].
  split; [reflexivity|].
  rewrite main_unfold, map_block_page, main_until_map_unfold. cbv zeta.
  cbn [fst snd].
  set (w0 := at_line_92 form true w).
  assert (exists mid, page (snd (resolve now (destination form)
                                   (snd (resolve now (starting_location form) w0))))
                      = page w0 ++ mid) as [mid Hmid].
  { assert (forall n v, exists m, page (snd (resolve now n v)) = page v ++ m) as Hgrow.
    { intros n v. unfold resolve. destruct (truthy_str n).
      - destruct (cache_read now n v) as [entry|] eqn:Hr.
        + rewrite (cached_hit _ _ _ _ Hr). eexists. reflexivity.
        + rewrite (cached_miss _ _ _ Hr). eexists. reflexivity.
      - exists []. cbn. rewrite app_nil_r. reflexivity. }
    destruct (Hgrow (starting_location form) w0) as [m1 H1].
    destruct (Hgrow (destination form) (snd (resolve now (starting_location form) w0)))
      as [m2 H2].
    exists (m1 ++ m2). rewrite H2, H1, app_assoc. reflexivity. }
  rewrite Hmid. unfold w0. rewrite at_line_92_page, Hd.
  eexists. cbn [app]. rewrite <- !app_assoc. cbn [app].
  destruct (generate_content form); cbn [app]; reflexivity.
Qed.

(** X14.  When the generator raises on a click and a coordinate is
    resolved, the run shows the fixed error text under the map as if it were
    the itinerary. *)
Theorem failed_generation_is_shown_as_itinerary now (form : TripForm) w (e : string) :
  destination form <> "" ->
  generate_content form = Failed e ->
  let coords := fst (main_until_map now form true w) in
  let w2 := snd (main_until_map now form true w) in
  coords <> (None, None) ->
  main now form true w
  = (tt, set_page
           (page w2 ++ [StFolium (create_map (starting_location form)
                                    (destination form) (fst coords) (snd coords))
                          700 500;
                        Markdown "Error: Could not generate itinerary."])
           w2).
Proof.
  intros Hd He. cbv zeta. intros Hc. apply truthy_str_true in Hd.
  pose proof (main_until_map_itinerary now form true w) as Hit.
  rewrite at_line_92_itinerary, Hd, He in Hit. cbn [andb] in Hit.
  rewrite main_unfold.
  destruct (main_until_map now form true w) as [[s d] w2]. cbn [fst snd] in *.
  assert (truthy s || truthy d = true) as Hor.
  { destruct s, d; try reflexivity. congruence. }
  unfold map_block, bind, st. rewrite Hor. cbn. rewrite Hit. cbn.
  rewrite <- app_assoc. reflexivity.
Qed.

(** X15.  The map of [create_map], for every input: the zoom is 10, also
    when bounds are set; there is one marker per present coordinate; bounds
    are set exactly when both coordinates are present; and a red marker is
    the destination's, at the destination's coordinate with the destination's
    name. *)
Theorem create_map_shape (starting_location destination : string)
    (s d : option Location) :
  let m := create_map starting_location destination s d in
  zoom_start m = 10
  /\ length (markers m)
     = ((if truthy s then 1 else 0) + (if truthy d then 1 else 0))%nat
  /\ (bounds m <> None <-> s <> None /\ d <> None)
  /\ (forall mk, In mk (markers m) -> icon_color mk = Some "red" ->
        exists l, d = Some l
                  /\ marker_location mk = (latitude l, longitude l)
                  /\ tooltip mk = destination).
Proof.
  cbv zeta. destruct s as [s|], d as [d|]; cbn;
    (split; [reflexivity|]); (split; [reflexivity|]); split;
    try (split; [intros H; split; congruence | intros [? ?]; congruence]).
  - intros mk [<-|[<-|[]]] Hred; [discriminate|]. eauto.
  - intros mk [<-|[]] Hred. discriminate.
  - intros mk [<-|[]] Hred. eauto.
  - intros mk [].
Qed.

(** X18.  [geocode_location] invents no coordinate: a [Location] it returns
    is the one the geocoder returned, for this name and timeout, on the last
    call the function made; and nothing was drawn. *)
Theorem returned_location_comes_from_the_last_call location_name retries timeout w
    (l : Location) :
  fst (geocode_location location_name retries timeout w) = Some l ->
  let w' := snd (geocode_location location_name retries timeout w) in
  (net_calls w < net_calls w')%nat
  /\ geolocator_geocode (net_calls w' - 1) location_name timeout
     = Returned (Some l)
  /\ page w' = page w.
Proof.
  cbv zeta. unfold geocode_location. generalize (range retries) as attempts.
  intros attempts. revert w.
  induction attempts as [|attempt rest IH]; intros w; [discriminate|].
  loop_cases location_name timeout w; cbn [fst snd]; try discriminate.
  - intros ->. cbn [net_calls set_net_calls set_page page].
    replace (S (net_calls w) - 1)%nat with (net_calls w) by lia.
    split; [lia|]. split; [exact Ho | reflexivity].
  - intros H. destruct (IH (set_net_calls (S (net_calls w)) w) H) as (Hn & Hg & Hp).
    cbn in Hn, Hp. split; [lia|]. split; [exact Hg | exact Hp].
Qed.

(** A loop over a range that is not empty makes a call. *)
Lemma attempt_loop_first_call location_name retries timeout attempt rest w :
  (net_calls w
   < net_calls (snd (attempt_loop location_name retries timeout (attempt :: rest) w)))%nat.
Proof.
  loop_cases location_name timeout w;
    cbn [snd net_calls set_page set_net_calls]; try lia.
  pose proof (attempt_loop_calls location_name retries timeout rest
                (set_net_calls (S (net_calls w)) w)) as H.
  cbn [net_calls set_net_calls] in H. lia.
Qed.

(** A call that raises what line 82 names, at an attempt that is not the
    last of the range, is followed by another call. *)
Lemma attempt_loop_goes_on location_name retries timeout (n i : nat) w (j : nat) e :
  (i + n = Z.to_nat retries)%nat ->
  (net_calls w <= j)%nat ->
  (j < net_calls (snd (attempt_loop location_name retries timeout
                         (map Z.of_nat (seq i n)) w)))%nat ->
  geolocator_geocode j location_name timeout = Raised e ->
  caught_by_line_82 e = true ->
  Z.of_nat (i + (j - net_calls w)) < retries - 1 ->
  (S j < net_calls (snd (attempt_loop location_name retries timeout
                           (map Z.of_nat (seq i n)) w)))%nat.
Proof.
  revert i w. induction n as [|n IH]; intros i w Hn Hlo Hhi Hj He Hleft.
  - cbn in Hhi. lia.
  - revert Hhi. cbn [seq map].
    loop_cases location_name timeout w;
      cbn [snd net_calls set_page set_net_calls]; intros Hhi.
    + assert (j = net_calls w) as -> by lia. congruence.
    + destruct (Nat.eq_dec j (net_calls w)) as [->|Hne].
      * destruct n as [|n]; [lia|]. cbn [seq map].
        pose proof (attempt_loop_first_call location_name retries timeout
                      (Z.of_nat (S i)) (map Z.of_nat (seq (S (S i)) n))
                      (set_net_calls (S (net_calls w)) w)) as H.
        cbn [net_calls set_net_calls] in H. exact H.
      * apply (IH (S i) (set_net_calls (S (net_calls w)) w)); cbn; try lia;
          assumption.
    + assert (j = net_calls w) as -> by lia.
      apply Z.ltb_ge in Ha. lia.
    + assert (j = net_calls w) as -> by lia. congruence.
Qed.

End Script.

(** ** The three ways a lookup ends without a coordinate *)

(** C10.  When the first call of the geocoder returns [None] (no such place),
    [geocode_location] returns [None] after that one call, with nothing
    drawn: no retry, no warning, no error.  The returned value is the same
    [None] when every call raises what line 82 names, and when the first call
    raises anything else. *)
Theorem absent_outcomes_look_alike
    (not_found exhausted broken : nat -> string -> Z -> Outcome)
    (location_name : string) (retries timeout : Z) (w : World) :
  0 < retries ->
  not_found (net_calls w) location_name timeout = Returned None ->
  (forall j, (j < Z.to_nat retries)%nat ->
     exists e, exhausted (net_calls w + j)%nat location_name timeout = Raised e
               /\ caught_by_line_82 e = true) ->
  (exists e, broken (net_calls w) location_name timeout = Raised e
             /\ caught_by_line_82 e = false) ->
  geocode_location not_found location_name retries timeout w
  = (None, set_net_calls (S (net_calls w)) w)
  /\ fst (geocode_location exhausted location_name retries timeout w) = None
  /\ fst (geocode_location broken location_name retries timeout w) = None.
Proof.
  intros Hpos Hnf Hex (e & Hbr & He). unfold geocode_location, range.
  destruct (Z.to_nat retries) as [|n] eqn:Hn; [lia|].
  split; [|split].
  - cbn [seq map]. apply attempt_loop_returned. exact Hnf.
  - destruct (attempt_loop_exhausted exhausted location_name retries timeout
                (S n) 0 w) as (e' & _ & Hrun); [lia | lia | exact Hex |].
    rewrite Hrun. reflexivity.
  - cbn [seq map]. rewrite (attempt_loop_other _ _ _ _ _ _ _ _ Hbr He). reflexivity.
Qed.

(** ** With geopy's [Nominatim] as the geocoder *)

Lemma caught_as_line_82 (c : geopy.exc) (msg : string) :
  caught_by_line_82 (caught_as c msg) = geopy.is_service_error c.
Proof. destruct c; reflexivity. Qed.

Lemma Nominatim_geocode_fails (service : nat -> string -> Z -> Reply)
    (n : nat) (location_name : string) (timeout : Z) (c : geopy.exc) (msg : string) :
  service n location_name timeout = Fails c msg ->
  Nominatim_geocode service n location_name timeout = Raised (caught_as c msg).
Proof. intros H. unfold Nominatim_geocode. rewrite H. reflexivity. Qed.

(** What line 82 catches from [Nominatim.geocode] is an exception the request
    ended with, of a class under [GeocoderServiceError]. *)
Lemma Nominatim_geocode_caught (service : nat -> string -> Z -> Reply)
    (n : nat) (location_name : string) (timeout : Z) (e : GeocodeException) :
  Nominatim_geocode service n location_name timeout = Raised e ->
  caught_by_line_82 e = true ->
  exists c msg, service n location_name timeout = Fails c msg
                /\ geopy.is_service_error c = true.
Proof.
  unfold Nominatim_geocode.
  destruct (service n location_name timeout) as [[place|]|c msg].
  - destruct (normalize_coordinates (lat place) (lon place)) as [[la lo]|];
      [discriminate|]. intros [= <-]. discriminate.
  - discriminate.
  - intros [= <-] He. rewrite caught_as_line_82 in He. eauto.
Qed.

(** C4, as amended.  With geopy's [Nominatim] as the geocoder,
    [geocode_location] makes at most [retries] calls (none when [retries] is
    not positive).  Every call but its last one ended with an exception of a
    class under geopy's [GeocoderServiceError], and such an exception,
    whatever its class, is followed by another call while attempts are left.
    An exception of any other class ends the function at once: the error is
    drawn and [None] returned.  As [main] calls it, with the default of 3, one
    [resolve] makes at most 3 calls. *)
Theorem retry_policy_by_geopy_class (service : nat -> string -> Z -> Reply)
    (location_name : string) (retries timeout now : Z) (w : World) :
  let geocoder := Nominatim_geocode service in
  let run := geocode_location geocoder location_name retries timeout w in
  let first := net_calls w in
  let made := (net_calls (snd run) - first)%nat in
  (first <= net_calls (snd run))%nat
  /\ Z.of_nat made <= Z.max 0 retries
  /\ (forall j, (S j < made)%nat ->
        exists c msg,
          service (first + j)%nat location_name timeout = Fails c msg
          /\ geopy.is_service_error c = true)
  /\ (forall j c msg, (j < made)%nat ->
        service (first + j)%nat location_name timeout = Fails c msg ->
        geopy.is_service_error c = true ->
        Z.of_nat (S j) < retries ->
        (S j < made)%nat)
  /\ (forall j c msg, (j < made)%nat ->
        service (first + j)%nat location_name timeout = Fails c msg ->
        geopy.is_service_error c = false ->
        run = (None,
               set_page (page w ++ [GeocodeError location_name (OtherException msg)])
                 (set_net_calls (S (first + j)) w)))
  /\ (net_calls (snd (resolve geocoder now location_name w)) - first <= 3)%nat.
Proof.
  cbv zeta.
  destruct (geocode_location_retry_policy (Nominatim_geocode service)
              location_name retries timeout now w)
    as (Hmono & Hmax & Honly & Hother & Hthree).
  split; [exact Hmono|]. split; [exact Hmax|]. split; [|split; [|split]].
  - intros j Hj. destruct (Honly j Hj) as [msg [H|H]];
      apply (Nominatim_geocode_caught service _ _ _ _ H); reflexivity.
  - intros j c msg Hj Hfail Hc Hleft.
    pose proof (Nominatim_geocode_fails service _ _ _ _ _ Hfail) as Hraised.
    assert (S (net_calls w + j)
            < net_calls (snd (geocode_location (Nominatim_geocode service)
                                location_name retries timeout w)))%nat; [|lia].
    unfold geocode_location, range.
    apply (attempt_loop_goes_on (Nominatim_geocode service) location_name retries
             timeout (Z.to_nat retries) 0 w (net_calls w + j) (caught_as c msg)).
    + lia.
    + lia.
    + fold (range retries).
      fold (geocode_location (Nominatim_geocode service) location_name retries
              timeout w). lia.
    + exact Hraised.
    + rewrite caught_as_line_82. exact Hc.
    + lia.
  - intros j c msg Hj Hfail Hc.
    pose proof (Nominatim_geocode_fails service _ _ _ _ _ Hfail) as Hraised.
    assert (caught_as c msg = OtherException msg) as Hcls
      by (destruct c; try discriminate; reflexivity).
    rewrite Hcls in Hraised. exact (Hother j msg Hj Hraised).
  - exact Hthree.
Qed.







(** * Concrete runs *)

(** C1 fails as stated: the itinerary was generated and is in the session,
    the one location given is not found, and the page of the run, and of the
    next run, shows the prompt and not the itinerary. *)
Lemma itinerary_hidden_when_nothing_resolves :
  let run := main knows_nothing day_one 0 (trip "" "Atlantis") true fresh in
  let next := main knows_nothing day_one 60 (trip "" "Atlantis") false (snd run) in
  itinerary (snd run) = Some "Day 1: arrive"
  /\ page (snd run)
     = [ GeneratingSubheader "Atlantis"; Subheader "Explore on Map";
         Info "Enter a starting location or destination to see the map." ]
  /\ itinerary (snd next) = Some "Day 1: arrive"
  /\ page (snd next)
     = [ Subheader "Explore on Map";
         Info "Enter a starting location or destination to see the map." ]
  /\ ~ In (Markdown "Day 1: arrive") (page (snd run))
  /\ ~ In (Markdown "Day 1: arrive") (page (snd next)).
Proof.
  cbv zeta. repeat split; try reflexivity.
  - vm_compute. intros [H|[H|[H|[]]]]; discriminate H.
  - vm_compute. intros [H|[H|[]]]; discriminate H.
Qed.

(** The amended C1 on a run where the destination resolves: the page ends
    with the map and the itinerary. *)
Lemma itinerary_is_drawn_with_the_map_witness :
  let run := main_until_map all_is_paris day_one 0 (trip "" "Paris") true fresh in
  itinerary (snd run) = Some "Day 1: arrive"
  /\ "Day 1: arrive" <> ""
  /\ fst run <> (None, None)
  /\ main all_is_paris day_one 0 (trip "" "Paris") true fresh
     = (tt, set_page
              (page (snd run)
               ++ [StFolium (create_map "" "Paris" None (Some (paris "Paris")))
                     700 500;
                   Markdown "Day 1: arrive"])
              (snd run)).
Proof.
  cbv zeta. split; [reflexivity|]. split; [discriminate|].
  split; [vm_compute; discriminate|].
  apply (proj1 (itinerary_is_drawn_with_the_map all_is_paris day_one 0
                  (trip "" "Paris") true fresh "Day 1: arrive" eq_refl
                  ltac:(discriminate))).
  vm_compute; discriminate.
Defined.



(** C8 on "Paris": the entry ends at 3600, answers at 3599, and is untouched
    by a lookup of "paris". *)
Lemma cache_hit_is_identical_and_keyed_by_name_witness :
  let w1 := snd (resolve all_is_paris 0 "Paris" fresh) in
  fst (resolve all_is_paris 0 "Paris" fresh) = Some (paris "Paris")
  /\ exists entry,
       cache w1 !! "Paris" = Some entry
       /\ value entry = Some (paris "Paris")
       /\ expires entry = 3600
       /\ resolve all_is_paris 3599 "Paris" w1
          = (Some (paris "Paris"), set_page (page w1 ++ messages entry) w1)
       /\ cache (snd (resolve all_is_paris 10 "paris" w1)) !! "Paris" = Some entry.
Proof.
  cbv zeta. split; [reflexivity|].
  destruct (cache_hit_is_identical_and_keyed_by_name all_is_paris 0 "Paris" fresh
              (paris "Paris") eq_refl)
    as (entry & Hl & Hv & Ht & Hexp & Hhit & Hother).
  exists entry. split; [exact Hl|]. split; [exact Hv|].
  pose proof (Hexp eq_refl) as Hend. split; [exact Hend|].
  split.
  - apply Hhit. rewrite Hend. reflexivity.
  - apply (Hother "paris" 10). discriminate.
Defined.

(** C10 on "Atlantis" with a geocoder that knows no place, one that is down
    and one that breaks. *)
Lemma absent_outcomes_look_alike_witness :
  0 < 3
  /\ knows_nothing 0%nat "Atlantis" 10 = Returned None
  /\ "Atlantis" <> ""
  /\ geocode_location knows_nothing "Atlantis" 3 10 fresh
     = (None, set_net_calls 1 fresh)
  /\ fst (geocode_location always_down "Atlantis" 3 10 fresh) = None
  /\ fst (geocode_location always_broken "Atlantis" 3 10 fresh) = None.
Proof.
  split; [reflexivity|]. split; [reflexivity|]. split; [discriminate|].
  apply (absent_outcomes_look_alike knows_nothing always_down always_broken
           "Atlantis" 3 10 fresh).
  - reflexivity.
  - reflexivity.
  - intros j _. eexists. split; reflexivity.
  - eexists. split; reflexivity.
Defined.

(** The default run of [geocode_location]: two timeouts, then an answer on the
    third and last attempt. *)
Example third_attempt_answers :
  geocode_location slow_and_wrong "Oslo" 3 10 fresh
  = (Some (far_north "Oslo"), set_net_calls 3 fresh).
Proof. reflexivity. Qed.

(** With [retries = 0] the range is empty: no call, [None]. *)
Example no_attempt_at_all :
  geocode_location all_is_paris "Paris" 0 10 fresh = (None, fresh).
Proof. reflexivity. Qed.

(** * Further properties and their runs *)

(** X16.  A run in which the button was not clicked, or was clicked without a
    destination, does not depend on the generator: it is the same run with
    any two of them. *)
Theorem run_without_generation_ignores_generator
    (geolocator_geocode : nat -> string -> Z -> Outcome)
    (g1 g2 : TripForm -> Response)
    (now : Z) (form : TripForm) (clicked : bool) (w : World) :
  clicked = false \/ destination form = "" ->
  main geolocator_geocode g1 now form clicked w
  = main geolocator_geocode g2 now form clicked w.
Proof.
  intros H. unfold main, main_until_map, button_block, bind.
  destruct H as [-> | Hd]; [reflexivity|].
  rewrite Hd. destruct clicked; reflexivity.
Qed.

(** X17.  src/list_models.py.  With no secrets file the script prints
    nothing and dies of the exception of [st.secrets], which line 6 does not
    catch.  With a file that lacks the key it prints the one line that says so
    and exits, whatever the service would list.  With the key it prints a
    name exactly when an item of the listing has that name and has
    "generateContent" among its methods, the printed names keep the order of
    the listing, and the script never takes the exit of line 8: it ends
    normally exactly when the listing did not fail. *)
Theorem list_models_prints_the_generating_models
    (list_models : string -> Listing) :
  list_models_script None list_models = ([], Uncaught "StreamlitSecretNotFoundError")
  /\ (forall file, file !! "GEMINI_API_KEY" = None ->
        list_models_script (Some file) list_models
        = (["Gemini API Key not found. Please set it in .streamlit/secrets.toml"],
           Exited))
  /\ (forall file api_key, file !! "GEMINI_API_KEY" = Some api_key ->
        let listing := list_models api_key in
        let out := list_models_script (Some file) list_models in
        (forall n,
           In n (fst out) <->
           exists m, In m (items listing) /\ name m = n
                     /\ In "generateContent" (supported_generation_methods m))
        /\ sublist (fst out) (map name (items listing))
        /\ (snd out = Done <-> failure listing = None)
        /\ snd out <> Exited).
Proof.
  split; [reflexivity|]. split.
  - intros file H. unfold list_models_script. rewrite H. reflexivity.
  - intros file api_key H. cbv zeta. unfold list_models_script. rewrite H.
    cbn [fst snd]. split; [|split; [|split]].
    + intros n. induction (items (list_models api_key)) as [|m l IH].
      * cbn. split; [intros [] | intros (m & [] & _)].
      * rewrite filter_cons. destruct (decide _) as [Hin|Hout].
        -- cbn [map In]. rewrite IH. split.
           ++ intros [<-|(m' & Hm' & Hn & Hg)].
              ** exists m. split; [left; reflexivity|]. split; [reflexivity|].
                 apply list_elem_of_In. exact Hin.
              ** exists m'. auto.
           ++ intros (m' & [<-|Hm'] & Hn & Hg); [left; exact Hn|].
              right. exists m'. auto.
        -- rewrite IH. split.
           ++ intros (m' & Hm' & Hn & Hg). exists m'. cbn. auto.
           ++ intros (m' & [<-|Hm'] & Hn & Hg).
              ** destruct Hout. apply list_elem_of_In. exact Hg.
              ** exists m'. auto.
    + induction (items (list_models api_key)) as [|m l IH].
      * constructor.
      * rewrite filter_cons. destruct (decide _); cbn [map];
          [apply sublist_skip | apply sublist_cons]; exact IH.
    + destruct (failure (list_models api_key)); split; congruence.
    + destruct (failure (list_models api_key)); discriminate.
Qed.

Lemma fresh_cache_ok : cache_ok fresh.
Proof. intros key entry H. cbn in H. rewrite lookup_empty in H. discriminate. Qed.

(** X1 on "Oslo": two timeouts, the answer on the third call, the page
    empty. *)
Lemma transient_failures_leave_no_trace_witness :
  Z.of_nat 2 < 3
  /\ slow_and_wrong 2%nat "Oslo" 10 = Returned (Some (far_north "Oslo"))
  /\ geocode_location slow_and_wrong "Oslo" 3 10 fresh
     = (Some (far_north "Oslo"), set_net_calls 3 fresh).
Proof.
  split; [reflexivity|]. split; [reflexivity|].
  apply (transient_failures_leave_no_trace slow_and_wrong "Oslo" 3 10 2 fresh
           (Some (far_north "Oslo"))).
  - reflexivity.
  - intros j Hj. exists (GeocoderTimedOut "timed out").
    destruct j as [|[|j]]; [split; reflexivity | split; reflexivity | lia].
  - reflexivity.
Defined.

(** X2 on a geocoder that is down: three calls, one warning. *)
Lemma retries_exhausted_witness :
  0 < 3
  /\ exists e,
       always_down 2%nat "Atlantis" 10 = Raised e
       /\ geocode_location always_down "Atlantis" 3 10 fresh
          = (None, set_page [GeocodeWarning "Atlantis" 3 e] (set_net_calls 3 fresh)).
Proof.
  split; [reflexivity|].
  apply (retries_exhausted always_down "Atlantis" 3 10 fresh).
  - reflexivity.
  - intros j _. eexists. split; reflexivity.
Defined.

(** X3 with [retries = 0] and with [retries = -2]. *)
Lemma no_retries_no_lookup_witness :
  0 <= 0
  /\ geocode_location all_is_paris "Paris" 0 10 fresh = (None, fresh)
  /\ geocode_location all_is_paris "Paris" (-2) 10 fresh = (None, fresh).
Proof.
  split; [discriminate|]. split.
  - apply (no_retries_no_lookup all_is_paris "Paris" 0 10 fresh). discriminate.
  - apply (no_retries_no_lookup all_is_paris "Paris" (-2) 10 fresh). discriminate.
Defined.

(** X5 on "Paris": stored at 0 with a [Location], ended at 3600; the lookup at
    3600 finds the geocoder down and puts [None] in the entry's place. *)
Lemma expired_entry_is_looked_up_again_witness :
  let w1 := snd (resolve one_answer_only 0 "Paris" fresh) in
  let old := {| value := Some (paris "Paris"); messages := []; expires := 3600 |} in
  "Paris" <> ""
  /\ cache w1 !! "Paris" = Some old
  /\ expires old <= 3600
  /\ fst (resolve one_answer_only 3600 "Paris" w1) = None
  /\ net_calls (snd (resolve one_answer_only 3600 "Paris" w1)) = 4%nat
  /\ cache (snd (resolve one_answer_only 3600 "Paris" w1))
     = <["Paris" := {| value := None;
                       messages := [GeocodeWarning "Paris" 3 (GeocoderServiceError "503")];
                       expires := 7200 |}]> (cache w1).
Proof.
  cbv zeta. split; [discriminate|]. split; [reflexivity|]. split; [discriminate|].
  apply (expired_entry_is_looked_up_again one_answer_only 3600 "Paris"
           (snd (resolve one_answer_only 0 "Paris" fresh))
           {| value := Some (paris "Paris"); messages := []; expires := 3600 |});
    [discriminate | reflexivity | discriminate].
Defined.


(** X8 on a second run, 100 later, of the trip from "Lyon" to "Paris": two
    calls in the first run, none in the second. *)
Lemma warm_cache_run_makes_no_call_witness :
  let form := trip "Lyon" "Paris" in
  let w1 := snd (main all_is_paris day_one 0 form false fresh) in
  net_calls w1 = 2%nat
  /\ fst (main_until_map all_is_paris day_one 100 form false w1)
     = (Some (paris "Lyon"), Some (paris "Paris"))
  /\ net_calls (snd (main all_is_paris day_one 100 form false w1)) = net_calls w1
  /\ cache (snd (main all_is_paris day_one 100 form false w1)) = cache w1.
Proof.
  cbv zeta. split; [reflexivity|].
  apply (warm_cache_run_makes_no_call all_is_paris day_one 100
           (trip "Lyon" "Paris") false
           (snd (main all_is_paris day_one 0 (trip "Lyon" "Paris") false fresh))).
  - right. split; [discriminate|].
    exists {| value := Some (paris "Lyon"); messages := []; expires := 3600 |}.
    split; [reflexivity|]. split; reflexivity.
  - right. split; [discriminate|].
    exists {| value := Some (paris "Paris"); messages := []; expires := 3600 |}.
    split; [reflexivity|]. split; reflexivity.
Defined.

(** X10 from the fresh world, with a geocoder that is down. *)
Lemma main_keeps_cache_ok_witness :
  cache_ok fresh
  /\ cache_ok (snd (main always_down day_one 0 (trip "Lyon" "Paris") true fresh)).
Proof.
  split; [exact fresh_cache_ok|].
  apply (main_keeps_cache_ok always_down day_one 0 (trip "Lyon" "Paris") true fresh).
  exact fresh_cache_ok.
Defined.

(** X11 on a run that resolves the destination: the itinerary is on the
    page, the prompt is not. *)
Lemma what_a_run_shows_witness :
  let w' := snd (main all_is_paris day_one 0 (trip "" "Paris") true fresh) in
  cache_ok fresh
  /\ In (Markdown "Day 1: arrive") (page w')
  /\ ~ In (Info "Enter a starting location or destination to see the map.") (page w').
Proof.
  cbv zeta. split; [exact fresh_cache_ok|].
  destruct (what_a_run_shows all_is_paris day_one 0 (trip "" "Paris") true fresh
              fresh_cache_ok) as (Hmd & Hinfo & _).
  split.
  - apply Hmd. split; [discriminate|]. split; [reflexivity | discriminate].
  - intros Hin. apply Hinfo in Hin as [Hc _]. discriminate Hc.
Defined.

(** X13 on a click with the generator failing. *)
Lemma click_stores_text_or_error_text_witness :
  let form := trip "" "Paris" in
  let w := set_itinerary (Some "an older plan") fresh in
  destination form <> ""
  /\ itinerary (snd (main all_is_paris gemini_down 0 form true w))
     = Some "Error: Could not generate itinerary."
  /\ exists rest,
       page (snd (main all_is_paris gemini_down 0 form true w))
       = GeneratingSubheader "Paris" :: [ItineraryError "quota"]
         ++ Subheader "Explore on Map" :: rest.
Proof.
  cbv zeta. split; [discriminate|].
  apply (click_stores_text_or_error_text all_is_paris gemini_down 0
           (trip "" "Paris") (set_itinerary (Some "an older plan") fresh)).
  discriminate.
Defined.

(** X14 on the same click: the error text under the map. *)
Lemma failed_generation_is_shown_as_itinerary_witness :
  let form := trip "" "Paris" in
  let w2 := snd (main_until_map all_is_paris gemini_down 0 form true fresh) in
  destination form <> ""
  /\ gemini_down form = Failed "quota"
  /\ fst (main_until_map all_is_paris gemini_down 0 form true fresh) <> (None, None)
  /\ main all_is_paris gemini_down 0 form true fresh
     = (tt, set_page
              (page w2 ++ [StFolium (create_map "" "Paris" None (Some (paris "Paris")))
                             700 500;
                           Markdown "Error: Could not generate itinerary."])
              w2).
Proof.
  cbv zeta. split; [discriminate|]. split; [reflexivity|].
  split; [vm_compute; discriminate|].
  apply (failed_generation_is_shown_as_itinerary all_is_paris gemini_down 0
           (trip "" "Paris") fresh "quota");
    [discriminate | reflexivity | vm_compute; discriminate].
Defined.

(** X16 on a click without a destination. *)
Lemma run_without_generation_ignores_generator_witness :
  let form := trip "Lyon" "" in
  (true = false \/ destination form = "")
  /\ main all_is_paris day_one 0 form true fresh
     = main all_is_paris gemini_down 0 form true fresh.
Proof.
  cbv zeta. split; [right; reflexivity|].
  apply (run_without_generation_ignores_generator all_is_paris day_one gemini_down
           0 (trip "Lyon" "") true fresh).
  right. reflexivity.
Defined.

(** The script of src/list_models.py on a listing of three models. *)
Example list_models_of_three :
  list_models_script (Some {["GEMINI_API_KEY" := "k"]}) three_models
  = (["models/gemini-pro"; "models/gemini-flash"], Done).
Proof. vm_compute. reflexivity. Qed.

(** X18 on "Oslo": the coordinate is the answer to the third call. *)
Lemma returned_location_comes_from_the_last_call_witness :
  fst (geocode_location slow_and_wrong "Oslo" 3 10 fresh) = Some (far_north "Oslo")
  /\ (0 < 3)%nat
  /\ slow_and_wrong (3 - 1)%nat "Oslo" 10 = Returned (Some (far_north "Oslo"))
  /\ page (snd (geocode_location slow_and_wrong "Oslo" 3 10 fresh)) = [].
Proof.
  split; [reflexivity|].
  apply (returned_location_comes_from_the_last_call slow_and_wrong "Oslo" 3 10 fresh
           (far_north "Oslo")).
  reflexivity.
Defined.



(** C4 fails as stated: the service rejects the request as malformed, which
    is neither a timeout nor an unavailable service; the lookup is made three
    times all the same and ends with the warning, not with the error. *)
Lemma malformed_query_is_retried :
  let run := geocode_location (Nominatim_geocode malformed_query)
               "Paris,, France" 3 10 fresh in
  malformed_query 0%nat "Paris,, France" 10
  = Fails geopy.GeocoderQueryError "HTTP 400"
  /\ net_calls (snd run) = 3%nat
  /\ run = (None,
            set_page [GeocodeWarning "Paris,, France" 3 (GeocoderServiceError "HTTP 400")]
              (set_net_calls 3 fresh)).
Proof. cbv zeta. repeat split. Qed.
